(** * VitalDex symptom-checker quiz engine

    A shallow embedding of the [SymptomChecker] class (quiz loading,
    navigation, answer storage, scoring, result export) together with the
    delayed auto-advance callbacks it schedules, and the properties of the
    engine stated over that embedding.

    Conventions of the embedding.
    - JavaScript numbers that the engine manipulates are integers; they are
      modelled by [Z], and a number that may be [NaN] by [option Z] with
      [None] for [NaN].  (Doubles are exact on integers up to 2^53.)
    - [undefined] / [null] for an optional field is [None].
    - An object used as a dictionary ([this.answers]) is a [gmap] keyed by
      the number used as property name.
    - A method is a computation in the monad [M]: it reads and updates the
      [World] (the engine object, the page, the queue of pending timers, the
      trace of outward effects) and either returns or throws; what was
      written before a throw stays written, as in JavaScript. *)

From Stdlib Require Import ZArith Ascii String.
From stdpp Require Import base option list strings pretty gmap fin_maps.

Local Open Scope string_scope.
Local Open Scope list_scope.
Local Open Scope Z_scope.

(** ** Numbers and [parseInt] *)

Module Js.

(** A JavaScript number restricted to the integers and [NaN]. *)
Definition NaN : option Z := None.

(** [ToBoolean] on a number: [NaN] and [0] are falsy. *)
Definition truthy (a : option Z) : bool :=
  match a with
  | Some n => negb (n =? 0)
  | None => false
  end.

(** [a || b] on numbers. *)
Definition or_else (a b : option Z) : option Z :=
  if truthy a then a else b.

(** [a || 0]: the result is never [NaN], so it is returned as a [Z]. *)
Definition or_zero (a : option Z) : Z :=
  match or_else a (Some 0) with
  | Some n => n
  | None => 0
  end.

(** [a - 1] on numbers ([NaN - 1] is [NaN]). *)
Definition pred (a : option Z) : option Z :=
  match a with
  | Some n => Some (n - 1)
  | None => None
  end.

(** White space skipped by [parseInt] (the ASCII part of it). *)
Definition is_space (c : ascii) : bool :=
  let n := Z.of_nat (nat_of_ascii c) in
  ((9 <=? n) && (n <=? 13)) || (n =? 32).

Fixpoint skip_spaces (s : string) : string :=
  match s with
  | String c s' => if is_space c then skip_spaces s' else s
  | EmptyString => s
  end.

(** Value of a character as a digit in some radix up to 36. *)
Definition digit_value (c : ascii) : option Z :=
  let n := Z.of_nat (nat_of_ascii c) in
  if (48 <=? n) && (n <=? 57) then Some (n - 48)
  else if (97 <=? n) && (n <=? 122) then Some (n - 87)
  else if (65 <=? n) && (n <=? 90) then Some (n - 55)
  else None.

(** Longest prefix of digits of the radix; [acc] is [None] until a digit
    has been read. *)
Fixpoint parse_digits (radix : Z) (s : string) (acc : option Z) : option Z :=
  match s with
  | String c s' =>
      match digit_value c with
      | Some d =>
          if d <? radix
          then parse_digits radix s' (Some (default 0 acc * radix + d))
          else acc
      | None => acc
      end
  | EmptyString => acc
  end.

(** Sign, then an optional [0x] / [0X] prefix choosing radix 16. *)
Definition parse_unsigned (s : string) : option Z :=
  match s with
  | String "0" (String "x" s') => parse_digits 16 s' None
  | String "0" (String "X" s') => parse_digits 16 s' None
  | _ => parse_digits 10 s None
  end.

Definition parse_signed (s : string) : option Z :=
  match s with
  | String "-" s' => Z.opp <$> parse_unsigned s'
  | String "+" s' => parse_unsigned s'
  | _ => parse_unsigned s
  end.

(** [parseInt(x)] with no radix argument; [x] is [undefined] or a string
    (a [dataset] entry).  [parseInt(undefined)] reads the text
    "undefined", which has no digit. *)
Definition parseInt (x : option string) : option Z :=
  match x with
  | Some s => parse_signed (skip_spaces s)
  | None => NaN
  end.

(** A value interpolated in a template string. *)
Definition show (x : option string) : string :=
  match x with
  | Some s => s
  | None => "undefined"
  end.

(** [Number.MAX_SAFE_INTEGER]: up to it, in absolute value, every integer
    is a double, and sums that stay within it are exact. *)
Definition MAX_SAFE_INTEGER : Z := 2 ^ 53 - 1.

(** A number interpolated in a template string or given to
    [setAttribute], on the safe integers, where the conversion is the
    decimal notation.  Outside that range the conversion prints a rounded
    value or switches to exponent notation; it is left undefined there. *)
Definition number_to_string (z : Z) : option string :=
  if Z.abs z <=? MAX_SAFE_INTEGER then Some (pretty z) else None.

End Js.

(** ** The quiz document ([quiz-data.json]) *)

Inductive Level := low | moderate | high.

Global Instance Level_eq_dec : EqDecision Level.
Proof. solve_decision. Defined.

Record Option_ := {
  opt_value : string;
  opt_weight : Z;
  opt_text : string;
  opt_icon : option string
}.

Inductive QuestionType := choice | scale.

Record Question := {
  q_type : QuestionType;
  q_question : string;
  q_description : option string;
  q_options : list Option_
}.

(** One entry of [scoring]: [max], and the [level] label and [color] that
    the results page displays. *)
Record Bucket := {
  bucket_max : Z;
  bucket_level : string;
  bucket_color : string
}.

Record Scoring := {
  scoring_low : Bucket;
  scoring_moderate : Bucket;
  scoring_high : Bucket
}.

(** The parsed document.  [questions] is the one field the loader checks,
    so it may be absent here; [autoAdvance] and [maxScore] are optional in
    the code; [scoring] and [recommendations] follow the document schema. *)
Record QuizData := {
  questions : option (list Question);
  scoring : Scoring;
  recommendations : Level -> option (list string);
  autoAdvance : option bool;
  maxScore : option Z
}.

(** ** The engine object, the page, and the world *)

(** The value stored in [this.answers[questionIndex]]. *)
Record Answer := {
  value : option string;
  weight : Z;
  text : option string
}.

Global Instance Answer_eq_dec : EqDecision Answer.
Proof. solve_decision. Defined.

Record SymptomChecker := {
  toolName : string;
  quizData : option QuizData;
  currentQuestion : Z;
  answers : gmap (option Z) Answer;
  totalScore : Z;
  isQuizCompleted : bool
}.

(** Which of the elements that the engine dereferences exist in the page. *)
Record Page := {
  has_quiz_container : bool;
  has_resultsSection : bool;
  has_nextBtn : bool;
  has_HealthCheckPro : bool
}.

(** The element enclosing a button that carries [data-question]. *)
Record QuestionDiv := {
  dataset_question : option string
}.

(** An answer button as [selectAnswer] / [selectScaleAnswer] see it. *)
Record Button := {
  closest_question : option QuestionDiv;
  dataset_value : option string;
  dataset_weight : option string;
  text_textContent : option string
}.

Inductive Announcement :=
  | Selected (t : option string)
  | SelectedScale (v : option string)
  | QuizCompletedMsg (l : Level) (score : Z)
  | QuizRestarted.

(** Effects that leave the engine. *)
Inductive Effect :=
  | Announce (m : Announcement)
  | TrackQuizCompleted (tool : string) (score : Z) (l : Level) (nanswers : nat)
  | ShowQuestion (index : Z)
  | DisplayResults (score : Z) (l : Level)
  | SetupEventListeners
  | ShowError (message : string).

(** A callback handed to [setTimeout]; the engine schedules one kind that
    touches its state. *)
Inductive Task := AutoAdvance.

Record World := {
  this : SymptomChecker;
  page : Page;
  timers : list Task;
  log : list Effect
}.

Inductive Exn :=
  | TypeError
  | SyntaxError
  | Error (message : string).

Inductive Result (A : Type) :=
  | Ok (a : A)
  | Throw (e : Exn).
Arguments Ok {A} a.
Arguments Throw {A} e.

(** ** The monad of methods *)

Definition M (A : Type) : Type := World -> Result A * World.

Definition ret {A} (a : A) : M A := fun w => (Ok a, w).

Definition bind {A B} (m : M A) (k : A -> M B) : M B :=
  fun w =>
    match m w with
    | (Ok a, w') => k a w'
    | (Throw e, w') => (Throw e, w')
    end.

Definition throw {A} (e : Exn) : M A := fun w => (Throw e, w).

Definition get_this : M SymptomChecker := fun w => (Ok (this w), w).

Definition get_page : M Page := fun w => (Ok (page w), w).

Definition set_this (f : SymptomChecker -> SymptomChecker) : M unit :=
  fun w => (Ok tt, {| this := f (this w); page := page w;
                      timers := timers w; log := log w |}).

Definition emit (e : Effect) : M unit :=
  fun w => (Ok tt, {| this := this w; page := page w;
                      timers := timers w; log := log w ++ [e] |}).

(** [setTimeout(task, 1000)]; the handle it returns is dropped by every
    caller, so it is not represented. *)
Definition setTimeout (t : Task) : M unit :=
  fun w => (Ok tt, {| this := this w; page := page w;
                      timers := timers w ++ [t]; log := log w |}).

Declare Scope js_scope.
Delimit Scope js_scope with js.
Notation "'let*' x ':=' m 'in' k" := (bind m (fun x => k))
  (at level 10, x name, m at level 100, k at level 200,
   format "'[v' 'let*'  x  ':='  m  'in' '/' k ']'") : js_scope.
Notation "m1 '>>' m2" := (bind m1 (fun _ => m2))
  (at level 100, m2 at level 200, right associativity) : js_scope.
Local Open Scope js_scope.

Definition when (b : bool) (m : M unit) : M unit :=
  if b then m else ret tt.

(** The world a computation leaves, whether it returned or threw. *)
Definition exec {A} (m : M A) (w : World) : World := snd (m w).

Definition returns {A} (m : M A) (w : World) : bool :=
  match fst (m w) with
  | Ok _ => true
  | Throw _ => false
  end.

(** ** Field updates of the engine object *)

Definition set_quizData (d : option QuizData) (sc : SymptomChecker) :=
  {| toolName := toolName sc; quizData := d;
     currentQuestion := currentQuestion sc; answers := answers sc;
     totalScore := totalScore sc; isQuizCompleted := isQuizCompleted sc |}.

Definition set_currentQuestion (i : Z) (sc : SymptomChecker) :=
  {| toolName := toolName sc; quizData := quizData sc;
     currentQuestion := i; answers := answers sc;
     totalScore := totalScore sc; isQuizCompleted := isQuizCompleted sc |}.

Definition set_answers (m : gmap (option Z) Answer) (sc : SymptomChecker) :=
  {| toolName := toolName sc; quizData := quizData sc;
     currentQuestion := currentQuestion sc; answers := m;
     totalScore := totalScore sc; isQuizCompleted := isQuizCompleted sc |}.

Definition set_totalScore (n : Z) (sc : SymptomChecker) :=
  {| toolName := toolName sc; quizData := quizData sc;
     currentQuestion := currentQuestion sc; answers := answers sc;
     totalScore := n; isQuizCompleted := isQuizCompleted sc |}.

Definition set_isQuizCompleted (b : bool) (sc : SymptomChecker) :=
  {| toolName := toolName sc; quizData := quizData sc;
     currentQuestion := currentQuestion sc; answers := answers sc;
     totalScore := totalScore sc; isQuizCompleted := b |}.

(** [this.answers[questionIndex] = a] *)
Definition store_answer (questionIndex : option Z) (a : Answer)
    (sc : SymptomChecker) : SymptomChecker :=
  set_answers (<[questionIndex := a]> (answers sc)) sc.

(** [Object.values(this.answers)]; the enumeration order of the map stands
    for the property order of the object. *)
Definition Object_values (m : gmap (option Z) Answer) : list Answer :=
  (map_to_list m).*2.

(** [Object.keys(this.answers).length] *)
Definition Object_keys_length (m : gmap (option Z) Answer) : nat :=
  length (map_to_list m).*1.

(** ** The constructor's fields *)

Definition new_SymptomChecker (tool : string) : SymptomChecker :=
  {| toolName := tool; quizData := None; currentQuestion := 0;
     answers := ∅; totalScore := 0; isQuizCompleted := false |}.

(** ** Methods of [SymptomChecker] *)

(** [this.quizData.questions.length]: a [TypeError] when [quizData] is
    [null] or has no [questions]. *)
Definition questions_length : M Z :=
  let* sc := get_this in
  match quizData sc with
  | Some qd =>
      match questions qd with
      | Some qs => ret (Z.of_nat (length qs))
      | None => throw TypeError
      end
  | None => throw TypeError
  end.

Definition canProceed : M bool :=
  let* sc := get_this in
  ret (bool_decide (is_Some (answers sc !! Some (currentQuestion sc)))).

(** Only what can throw is kept of [updateNavigationButtons]: with a
    [nextBtn] in the page it reads [canProceed()] and the number of
    questions; the rest writes button attributes. *)
Definition updateNavigationButtons : M unit :=
  let* p := get_page in
  when (has_nextBtn p)
    (let* _ := canProceed in
     let* _ := questions_length in
     ret tt).

(** [showQuestion(index)]: returns at once without data or past the last
    question; otherwise the page shows that question (class changes, a
    focus timer and generated markup, none of which the engine reads). *)
Definition showQuestion (index : Z) : M unit :=
  let* sc := get_this in
  match quizData sc with
  | None => ret tt
  | Some _ =>
      let* n := questions_length in
      if n <=? index then ret tt
      else emit (ShowQuestion index) >> updateNavigationButtons
  end.

(** [announceToScreenReader(message)] *)
Definition announceToScreenReader (m : Announcement) : M unit :=
  emit (Announce m).

Definition calculateScore : M Z :=
  set_this (set_totalScore 0) >>
  let* sc := get_this in
  set_this (set_totalScore
              (foldl (fun total answer => total + weight answer)
                     (totalScore sc) (Object_values (answers sc)))) >>
  let* sc' := get_this in
  ret (totalScore sc').

(** The comparison chain of [getResultLevel]. *)
Definition level_for (s : Scoring) (score : Z) : Level :=
  if score <=? bucket_max (scoring_low s) then low
  else if score <=? bucket_max (scoring_moderate s) then moderate
  else high.

Definition getResultLevel : M Level :=
  let* score := calculateScore in
  let* sc := get_this in
  match quizData sc with
  | None => throw TypeError
  | Some qd => ret (level_for (scoring qd) score)
  end.

(** [displayResults(score, level)] fills in the results section. *)
Definition displayResults (score : Z) (l : Level) : M unit :=
  emit (DisplayResults score l).

Definition completeQuiz : M unit :=
  set_this (set_isQuizCompleted true) >>
  let* score := calculateScore in
  let* l := getResultLevel in
  let* p := get_page in
  if negb (has_quiz_container p) then throw TypeError
  else
    when (has_resultsSection p) (displayResults score l) >>
    when (has_HealthCheckPro p)
      (let* sc := get_this in
       emit (TrackQuizCompleted (toolName sc) score l
               (Object_keys_length (answers sc)))) >>
    if negb (has_resultsSection p) then throw TypeError
    else announceToScreenReader (QuizCompletedMsg l score).

Definition nextQuestion : M unit :=
  let* ok := canProceed in
  if negb ok then ret tt
  else
    let* sc := get_this in
    let* n := questions_length in
    if currentQuestion sc <? n - 1 then
      set_this (set_currentQuestion (currentQuestion sc + 1)) >>
      showQuestion (currentQuestion sc + 1)
    else completeQuiz.

Definition previousQuestion : M unit :=
  let* sc := get_this in
  if 0 <? currentQuestion sc then
    set_this (set_currentQuestion (currentQuestion sc - 1)) >>
    showQuestion (currentQuestion sc - 1)
  else ret tt.

(** The function handed to [setTimeout] by [selectAnswer]. *)
Definition autoAdvanceCallback : M unit :=
  let* ok := canProceed in
  when ok nextQuestion.

(** [a || b] on strings that may be [undefined]: the empty string is
    falsy. *)
Definition text_or (a b : option string) : option string :=
  match a with
  | Some (String _ _) => a
  | _ => b
  end.

(** [parseInt(questionDiv.dataset.question) - 1] *)
Definition questionIndex_of (questionDiv : QuestionDiv) : option Z :=
  Js.pred (Js.parseInt (dataset_question questionDiv)).

(** The object that [selectAnswer] stores for a button:
    [weight] is [parseInt(button.dataset.weight) || 0] and [text] is the
    text of the [.text] child, or the value. *)
Definition choice_answer (b : Button) : Answer :=
  {| value := dataset_value b;
     weight := Js.or_zero (Js.parseInt (dataset_weight b));
     text := text_or (text_textContent b) (dataset_value b) |}.

(** The object that [selectScaleAnswer] stores for a button: [weight] is
    [parseInt(button.dataset.weight) || parseInt(value) || 0]. *)
Definition scale_answer (b : Button) : Answer :=
  {| value := dataset_value b;
     weight := Js.or_zero (Js.or_else (Js.parseInt (dataset_weight b))
                                      (Js.parseInt (dataset_value b)));
     text := Some ("Scale: " +:+ Js.show (dataset_value b)) |}.

Definition selectAnswer (button : option Button) : M unit :=
  match button with
  | None => ret tt
  | Some b =>
      match closest_question b with
      | None => throw TypeError
      | Some questionDiv =>
          let questionIndex := questionIndex_of questionDiv in
          set_this (store_answer questionIndex (choice_answer b)) >>
          updateNavigationButtons >>
          let* sc := get_this in
          match quizData sc with
          | None => throw TypeError
          | Some qd =>
              when (negb (bool_decide (autoAdvance qd = Some false)))
                (setTimeout AutoAdvance) >>
              announceToScreenReader (Selected (text (choice_answer b)))
          end
      end
  end.

Definition selectScaleAnswer (button : option Button) : M unit :=
  match button with
  | None => ret tt
  | Some b =>
      match closest_question b with
      | None => throw TypeError
      | Some questionDiv =>
          let questionIndex := questionIndex_of questionDiv in
          set_this (store_answer questionIndex (scale_answer b)) >>
          updateNavigationButtons >>
          announceToScreenReader (SelectedScale (dataset_value b))
      end
  end.

Definition restartQuiz : M unit :=
  set_this (set_currentQuestion 0) >>
  set_this (set_answers ∅) >>
  set_this (set_totalScore 0) >>
  set_this (set_isQuizCompleted false) >>
  let* p := get_page in
  if negb (has_quiz_container p) then throw TypeError
  else
    showQuestion 0 >>
    announceToScreenReader QuizRestarted.

(** The object returned by [exportResults]. *)
Record ExportedResults := {
  res_tool : string;
  res_score : Z;
  res_level : Level;
  res_answers : gmap (option Z) Answer;
  res_completedAt : string;
  res_recommendations : option (list string)
}.

(** [exportResults()]; [now] is what [new Date().toISOString()] gives at
    the call.  The fields of the literal are evaluated in order:
    [this.totalScore] is read before the first [getResultLevel()], which
    recomputes it. *)
Definition exportResults (now : string) : M (option ExportedResults) :=
  let* sc := get_this in
  if negb (isQuizCompleted sc) then ret None
  else
    let tool := toolName sc in
    let score := totalScore sc in
    let* l := getResultLevel in
    let* sc1 := get_this in
    let ans := answers sc1 in
    let* l' := getResultLevel in
    let* sc2 := get_this in
    match quizData sc2 with
    | None => throw TypeError
    | Some qd =>
        ret (Some {| res_tool := tool; res_score := score; res_level := l;
                     res_answers := ans; res_completedAt := now;
                     res_recommendations := recommendations qd l' |})
    end.

(** ** Loading *)

(** What [fetch('./quiz-data.json')] and [response.json()] can give: the
    request fails, or a response arrives with its [ok] flag and status and
    a body that does not parse ([None]), parses to a falsy value such as
    [null] ([Some None]) or parses to a document. *)
Inductive FetchOutcome :=
  | NetworkFailure
  | Response (ok : bool) (status : Z) (body : option (option QuizData)).

Definition loadQuizData (f : FetchOutcome) : M unit :=
  match f with
  | NetworkFailure => throw TypeError
  | Response ok status body =>
      if negb ok
      then throw (Error ("HTTP error! status: " +:+ pretty status))
      else
        match body with
        | None => throw SyntaxError
        | Some d =>
            set_this (set_quizData d) >>
            let* sc := get_this in
            match quizData sc with
            | None => throw (Error "Invalid quiz data structure")
            | Some qd =>
                match questions qd with
                | None => throw (Error "Invalid quiz data structure")
                | Some [] => throw (Error "Invalid quiz data structure")
                | Some (_ :: _) => ret tt
                end
            end
        end
  end.

(** [try { ... } catch (error) { ... }] *)
Definition try_catch {A} (m : M A) (handler : Exn -> M A) : M A :=
  fun w =>
    match m w with
    | (Ok a, w') => (Ok a, w')
    | (Throw e, w') => handler e w'
    end.

Definition setupEventListeners : M unit := emit SetupEventListeners.

Definition showError (message : string) : M unit := emit (ShowError message).

Definition init (f : FetchOutcome) : M unit :=
  try_catch
    (loadQuizData f >>
     setupEventListeners >>
     showQuestion 0)
    (fun _ =>
       showError "Failed to load quiz data. Please refresh the page.").

(** [new SymptomChecker(toolName)] in a page, with the outcome of the
    fetch that its [init()] awaits. *)
Definition construct (tool : string) (p : Page) (f : FetchOutcome) : World :=
  exec (init f)
    {| this := new_SymptomChecker tool; page := p; timers := []; log := [] |}.

(** ** Events of the page *)

(** What the event loop can run against the engine: a click on an answer
    or scale button, the navigation buttons, the restart link, and the
    oldest pending timer coming due (all timers have the same delay, so
    they fire in the order they were set). *)
Inductive Event :=
  | ClickAnswer (b : Button)
  | ClickScale (b : Button)
  | ClickNext
  | ClickPrev
  | ClickRestart
  | TimerFires.

Definition pop_timer : M (option Task) :=
  fun w =>
    match timers w with
    | [] => (Ok None, w)
    | t :: ts => (Ok (Some t),
                  {| this := this w; page := page w;
                     timers := ts; log := log w |})
    end.

Definition handle (e : Event) : M unit :=
  match e with
  | ClickAnswer b => selectAnswer (Some b)
  | ClickScale b => selectScaleAnswer (Some b)
  | ClickNext => nextQuestion
  | ClickPrev => previousQuestion
  | ClickRestart => restartQuiz
  | TimerFires =>
      let* t := pop_timer in
      match t with
      | Some AutoAdvance => autoAdvanceCallback
      | None => ret tt
      end
  end.

(** One turn of the event loop; an exception in a handler ends the turn
    and leaves what was written. *)
Definition step (w : World) (e : Event) : World := exec (handle e) w.

Definition run (w : World) (es : list Event) : World := foldl step w es.

(** ** The scoring rules as the specification words them *)

Module Spec.

(** The three buckets of a document with their [max]. *)
Definition scoringRules (s : Scoring) : list (Level * Z) :=
  [ (low, bucket_max (scoring_low s));
    (moderate, bucket_max (scoring_moderate s));
    (high, bucket_max (scoring_high s)) ].

Fixpoint insert_bucket (b : Level * Z) (l : list (Level * Z))
    : list (Level * Z) :=
  match l with
  | [] => [b]
  | c :: l' => if b.2 <=? c.2 then b :: c :: l' else c :: insert_bucket b l'
  end.

(** Buckets by ascending [max]. *)
Definition ascending (l : list (Level * Z)) : list (Level * Z) :=
  foldr insert_bucket [] l.

Fixpoint first_covering (score : Z) (l : list (Level * Z)) : option Level :=
  match l with
  | [] => None
  | b :: l' => if score <=? b.2 then Some b.1 else first_covering score l'
  end.

(** The first bucket, by ascending [max], whose [max] is at least the
    score; the bucket with the largest [max] when there is none. *)
Definition classify (score : Z) (rules : list (Level * Z)) : option Level :=
  match first_covering score (ascending rules) with
  | Some l => Some l
  | None => fst <$> last (ascending rules)
  end.

End Spec.

(** ** Sums of weights *)

Definition Zsum (l : list Z) : Z := foldr Z.add 0 l.

(** The sum of the [weight] fields of the recorded answers. *)
Definition sum_of_weights (m : gmap (option Z) Answer) : Z :=
  Zsum (weight <$> Object_values m).


Definition with_this (sc : SymptomChecker) (w : World) : World :=
  {| this := sc; page := page w; timers := timers w; log := log w |}.

Definition with_timers (ts : list Task) (w : World) : World :=
  {| this := this w; page := page w; timers := ts; log := log w |}.

Definition with_log (l : list Effect) (w : World) : World :=
  {| this := this w; page := page w; timers := timers w; log := l |}.

(** The current question has a recorded answer. *)
Definition answered (sc : SymptomChecker) : bool :=
  bool_decide (is_Some (answers sc !! Some (currentQuestion sc))).

(** Number of completion events in a trace. *)
Definition is_completion (e : Effect) : bool :=
  match e with
  | TrackQuizCompleted _ _ _ _ => true
  | _ => false
  end.

Definition completions (l : list Effect) : nat :=
  length (filter (fun e => is_completion e = true) l).

(** The trace of one completion in a page that has the quiz container and
    the results section. *)
Definition completion_trace (sc : SymptomChecker) (qd : QuizData)
    (tracked : bool) : list Effect :=
  let score := sum_of_weights (answers sc) in
  let l := level_for (scoring qd) score in
  [DisplayResults score l]
  ++ (if tracked
      then [TrackQuizCompleted (toolName sc) score l
              (Object_keys_length (answers sc))]
      else [])
  ++ [Announce (QuizCompletedMsg l score)].

(** What a call of [exportResults] handed back, if anything. *)
Definition exported (r : Result (option ExportedResults) * World)
    : option ExportedResults :=
  match fst r with
  | Ok x => x
  | Throw _ => None
  end.

(** A computation that removes no pending timer. *)
Definition keeps_pending {A} (m : M A) : Prop :=
  forall w, timers w `prefix_of` timers (exec m w).

(** ** Read-only views of the engine *)

(** The object returned by [getCurrentProgress]. *)
Record Progress := {
  progress_currentQuestion : Z;
  progress_totalQuestions : Z;
  progress_answeredQuestions : nat;
  progress_isCompleted : bool
}.

(** [getCurrentProgress()]; [this.quizData?.questions?.length || 0] is 0
    without data or without questions. *)
Definition getCurrentProgress (sc : SymptomChecker) : Progress :=
  {| progress_currentQuestion := currentQuestion sc + 1;
     progress_totalQuestions :=
       match quizData sc with
       | Some qd =>
           match questions qd with
           | Some qs => Z.of_nat (length qs)
           | None => 0
           end
       | None => 0
       end;
     progress_answeredQuestions := Object_keys_length (answers sc);
     progress_isCompleted := isQuizCompleted sc |}.

(** What [updateNavigationButtons] writes on the two buttons, for an
    engine whose document has [n] questions. *)
Record NavButtons := {
  prevBtn_disabled : bool;
  nextBtn_disabled : bool;
  nextBtn_textContent : string
}.

Definition navigationButtons (sc : SymptomChecker) (n : Z) : NavButtons :=
  {| prevBtn_disabled := currentQuestion sc =? 0;
     nextBtn_disabled :=
       negb (bool_decide (is_Some (answers sc !! Some (currentQuestion sc))));
     nextBtn_textContent :=
       if currentQuestion sc =? n - 1 then "Get Results" else "Next" |}.

(** ** Markup written by [generateQuestion] *)

(** The button [b] carries what [generateQuestion] writes for the option
    [o] of the question at [index]: its question element has
    [data-question] set to [index + 1], and its [data-weight] is the
    option's weight, both as the number-to-string conversion prints them. *)
Definition generated_for (index : Z) (o : Option_) (b : Button) : Prop :=
  exists questionDiv sq sw,
    Js.number_to_string (index + 1) = Some sq
    /\ Js.number_to_string (opt_weight o) = Some sw
    /\ closest_question b = Some questionDiv
    /\ dataset_question questionDiv = Some sq
    /\ dataset_weight b = Some sw.

(** ** Local event tracking ([trackEvent] of the main script) *)

Module Tracking.

(** One entry of the stored list; [D] is the type of payloads. *)
Record Entry (D : Type) := {
  event : string;
  data : D;
  timestamp : string
}.
Arguments event {D} e.
Arguments data {D} e.
Arguments timestamp {D} e.

(** What [localStorage.getItem('healthcheckpro_events')] holds: nothing (or
    the empty string), the text of an array of entries, or a text on which
    [JSON.parse] or [events.push] throws. *)
Inductive Item (D : Type) :=
  | NoItem
  | Entries (l : list (Entry D))
  | Corrupt.
Arguments NoItem {D}.
Arguments Entries {D} l.
Arguments Corrupt {D}.

(** The storage: its item, whether reading it is allowed, and whether a
    write goes through (it throws when the quota is exceeded). *)
Record Storage (D : Type) := {
  item : Item D;
  readable : bool;
  writable : bool
}.
Arguments item {D} s.
Arguments readable {D} s.
Arguments writable {D} s.

(** [events.splice(0, events.length - 100)] when there are more than 100. *)
Definition keep_last_100 {D} (events : list (Entry D)) : list (Entry D) :=
  if (100 <? length events)%nat then drop (length events - 100) events
  else events.

(** [trackEvent(eventName, data)]; [now] is the time stamp of the call.
    Any exception inside the [try] is caught and only logged. *)
Definition trackEvent {D} (eventName : string) (d : D) (now : string)
    (s : Storage D) : Storage D :=
  if negb (readable s) then s
  else
    let parsed :=
      match item s with
      | NoItem => Some []
      | Entries l => Some l
      | Corrupt => None
      end in
    match parsed with
    | None => s
    | Some events =>
        let events' :=
          keep_last_100
            (events ++ [{| event := eventName; data := d; timestamp := now |}])
        in
        if writable s
        then {| item := Entries events'; readable := readable s;
                writable := writable s |}
        else s
    end.

(** Successive calls, one per triple of the list. *)
Definition trackAll {D} (calls : list (string * D * string)) (s : Storage D)
    : Storage D :=
  foldl (fun s c => trackEvent c.1.1 c.1.2 c.2 s) s calls.

Definition entry_of {D} (c : string * D * string) : Entry D :=
  {| event := c.1.1; data := c.1.2; timestamp := c.2 |}.

Definition stored {D} (s : Storage D) : list (Entry D) :=
  match item s with
  | Entries l => l
  | _ => []
  end.

End Tracking.

(** ** States reached from a successful load *)

(** What every event preserves, for a document [qd] whose questions are
    [qs]: the tool and the document stay, the current index is a valid
    question index, every question before the current one has an answer,
    and in a completed quiz every question has one. *)
Record Reached (tool : string) (qd : QuizData) (qs : list Question)
    (w : World) : Prop := {
  reached_tool : toolName (this w) = tool;
  reached_data : quizData (this w) = Some qd;
  reached_range : 0 <= currentQuestion (this w) < Z.of_nat (length qs);
  reached_before :
    forall j, 0 <= j < currentQuestion (this w) ->
              is_Some (answers (this w) !! Some j);
  reached_completed :
    isQuizCompleted (this w) = true ->
    forall j, 0 <= j < Z.of_nat (length qs) ->
              is_Some (answers (this w) !! Some j)
}.

(** What [completeQuiz] emits before it returns or throws, by the elements
    present in the page: nothing without the quiz container; the results,
    if there is a results section, and the tracked event, if the main
    script is loaded; the announcement only with a results section. *)
Definition completion_effects (sc : SymptomChecker) (qd : QuizData)
    (p : Page) : list Effect :=
  let score := sum_of_weights (answers sc) in
  let l := level_for (scoring qd) score in
  if has_quiz_container p then
    (if has_resultsSection p then [DisplayResults score l] else [])
    ++ (if has_HealthCheckPro p
        then [TrackQuizCompleted (toolName sc) score l
                (Object_keys_length (answers sc))]
        else [])
    ++ (if has_resultsSection p then [Announce (QuizCompletedMsg l score)]
        else [])
  else [].

(** ** Outcomes of the fetch, as [init] tells them apart *)

(** The fetch gave a successful response whose body is a document with at
    least one question. *)
Definition usable (f : FetchOutcome) : bool :=
  match f with
  | Response true _ (Some (Some d)) =>
      match questions d with
      | Some (_ :: _) => true
      | _ => false
      end
  | _ => false
  end.

(** The value that a successful response's body parsed to, if it did. *)
Definition parsed_body (f : FetchOutcome) : option QuizData :=
  match f with
  | Response true _ (Some d) => d
  | _ => None
  end.

(** The order of the risk levels. *)
Definition level_rank (l : Level) : Z :=
  match l with
  | low => 0
  | moderate => 1
  | high => 2
  end.

(** The absolute values of the recorded weights add up to a safe integer:
    then every weight, and every partial sum of weights in whatever order
    they are added, is an integer that the doubles of the code hold
    exactly. *)
Definition safe_weights (m : gmap (option Z) Answer) : Prop :=
  Zsum (Z.abs <$> (weight <$> Object_values m)) <= Js.MAX_SAFE_INTEGER.

(** The weight recorded at a key, 0 when there is none. *)
Definition weight_at (m : gmap (option Z) Answer) (k : option Z) : Z :=
  match m !! k with
  | Some a => weight a
  | None => 0
  end.

(** The indices of the questions shown, in the order of the trace. *)
Definition shown (l : list Effect) : list Z :=
  omap (fun e => match e with ShowQuestion i => Some i | _ => None end) l.

(** ** A sample quiz *)

Module Demo.

Definition question : Question :=
  {| q_type := choice; q_question := "How tired are you?";
     q_description := None; q_options := [] |}.

Definition bucket (m : Z) (l : string) : Bucket :=
  {| bucket_max := m; bucket_level := l; bucket_color := "#888" |}.

Definition scoring_of (l m h : Z) : Scoring :=
  {| scoring_low := bucket l "Low Risk";
     scoring_moderate := bucket m "Moderate Risk";
     scoring_high := bucket h "High Risk" |}.

Definition advice (l : Level) : option (list string) :=
  match l with
  | low => Some ["Keep it up"]
  | moderate => Some ["Rest more"]
  | high => Some ["See a doctor"]
  end.

(** A document of [n] questions with the given bucket limits. *)
Definition quiz (n : nat) (l m h : Z) : QuizData :=
  {| questions := Some (replicate n question);
     scoring := scoring_of l m h;
     recommendations := advice;
     autoAdvance := None;
     maxScore := None |}.

Definition full_page : Page :=
  {| has_quiz_container := true; has_resultsSection := true;
     has_nextBtn := true; has_HealthCheckPro := true |}.

(** A button of question number [q] (1-based, as in [data-question]). *)
Definition answer_button (q w : string) : Button :=
  {| closest_question := Some {| dataset_question := Some q |};
     dataset_value := Some "yes"; dataset_weight := Some w;
     text_textContent := Some "Yes" |}.

Definition scale_button (q v : string) (w : option string) : Button :=
  {| closest_question := Some {| dataset_question := Some q |};
     dataset_value := Some v; dataset_weight := w;
     text_textContent := None |}.

(** The engine after a successful load. *)
Definition loaded (n : nat) (l m h : Z) : World :=
  construct "fatigue" full_page
    (Response true 200 (Some (Some (quiz n l m h)))).

(** One question, answered. *)
Definition answered1 : World :=
  run (loaded 1 2 4 10) [ClickAnswer (answer_button "1" "3")].

(** Two questions, the engine at the first one, nothing answered. *)
Definition at_first : World := loaded 2 2 4 10.

(** A document whose [low] limit lies above its [moderate] limit, with
    one answer of weight 3 recorded. *)
Definition unordered_buckets : World :=
  run (loaded 1 10 5 20) [ClickAnswer (answer_button "1" "3")].



(** A completed one-question session in which the answer is selected
    again, with another weight, after completion. *)
Definition reanswered : World :=
  run (loaded 1 2 4 10)
    [ClickAnswer (answer_button "1" "2"); ClickNext;
     ClickAnswer (answer_button "1" "5")].

(** Three questions; the first is answered, the quiz is restarted, and
    the first question is answered again. *)
Definition restarted : World :=
  run (loaded 3 2 4 10)
    [ClickAnswer (answer_button "1" "2"); ClickRestart;
     ClickAnswer (answer_button "1" "2")].

(** Three questions; the first two are answered and left by their own
    timers, the user goes back to the first, answers it again and
    presses Next by hand. *)
Definition went_back : World :=
  run (loaded 3 2 4 10)
    [ClickAnswer (answer_button "1" "2"); TimerFires;
     ClickAnswer (answer_button "2" "2"); TimerFires;
     ClickPrev; ClickPrev;
     ClickAnswer (answer_button "1" "1"); ClickNext].

(** Two questions; the first is answered by a choice button (which
    schedules an auto-advance), the quiz is restarted, and the first
    question is answered again on a scale button (which schedules
    nothing). *)
Definition restarted_then_scaled : World :=
  run (loaded 2 2 4 10)
    [ClickAnswer (answer_button "1" "2"); ClickRestart;
     ClickScale (scale_button "1" "3" None)].

(** The same document with the auto-advance switched off. *)
Definition quiz_no_auto (n : nat) (l m h : Z) : QuizData :=
  {| questions := Some (replicate n question);
     scoring := scoring_of l m h;
     recommendations := advice;
     autoAdvance := Some false;
     maxScore := None |}.

(** A document that parses but has no [questions] field. *)
Definition quiz_without_questions : QuizData :=
  {| questions := None;
     scoring := scoring_of 2 4 10;
     recommendations := advice;
     autoAdvance := None;
     maxScore := None |}.

(** The engine as the constructor leaves it, before any load. *)
Definition fresh : World :=
  {| this := new_SymptomChecker "fatigue"; page := full_page;
     timers := []; log := [] |}.

(** The engine after the load of a document with an empty [questions]
    array has failed. *)
Definition empty_loaded : World :=
  construct "fatigue" full_page (Response true 200 (Some (Some (quiz 0 2 4 10)))).

(** One question, answered, then Next: the quiz is completed. *)
Definition completed1 : World :=
  run (loaded 1 2 4 10) [ClickAnswer (answer_button "1" "3"); ClickNext].

(** Two questions, both answered, completed at the second. *)
Definition completed2 : World :=
  run (loaded 2 2 4 10)
    [ClickAnswer (answer_button "1" "2"); ClickNext;
     ClickAnswer (answer_button "2" "3"); ClickNext].

End Demo.

(** * Properties *)

(** ** Basic facts about the methods *)

Lemma world_eta (w : World) :
  {| this := this w; page := page w; timers := timers w; log := log w |} = w.
Proof. by destruct w. Qed.

Lemma canProceed_run (w : World) :
  canProceed w = (Ok (answered (this w)), w).
Proof. reflexivity. Qed.

Lemma foldl_weights (l : list Answer) (acc : Z) :
  foldl (fun total answer => total + weight answer) acc l
  = acc + Zsum (weight <$> l).
Proof.
  revert acc. induction l as [|a l IH]; intros acc.
  - unfold Zsum; simpl. lia.
  - rewrite fmap_cons. simpl. rewrite IH. lia.
Qed.

Lemma Zsum_Permutation (l1 l2 : list Z) : l1 ≡ₚ l2 -> Zsum l1 = Zsum l2.
Proof.
  unfold Zsum. induction 1; simpl in *; lia.
Qed.

Lemma calculateScore_run (w : World) :
  calculateScore w
  = (Ok (sum_of_weights (answers (this w))),
     with_this (set_totalScore (sum_of_weights (answers (this w))) (this w)) w).
Proof.
  unfold calculateScore, bind, set_this, get_this, ret; simpl.
  rewrite foldl_weights. reflexivity.
Qed.

(** Unfolds the plumbing of the monad. *)
Ltac run_m :=
  unfold bind, ret, throw, get_this, get_page, set_this, emit, setTimeout,
    when, exec, returns in *; simpl in *.

Lemma questions_length_run (w : World) (qd : QuizData) (qs : list Question) :
  quizData (this w) = Some qd -> questions qd = Some qs ->
  questions_length w = (Ok (Z.of_nat (length qs)), w).
Proof.
  intros Hqd Hqs. unfold questions_length. run_m.
  rewrite Hqd, Hqs. reflexivity.
Qed.

Lemma updateNavigationButtons_exec (w : World) :
  exec updateNavigationButtons w = w.
Proof.
  unfold updateNavigationButtons, canProceed, questions_length. run_m.
  destruct (has_nextBtn (page w)); simpl; [|reflexivity].
  destruct (quizData (this w)) as [qd|]; simpl; [|reflexivity].
  destruct (questions qd); reflexivity.
Qed.

Lemma updateNavigationButtons_run (w : World) (qd : QuizData)
    (qs : list Question) :
  quizData (this w) = Some qd -> questions qd = Some qs ->
  updateNavigationButtons w = (Ok tt, w).
Proof.
  intros Hqd Hqs.
  unfold updateNavigationButtons, canProceed, questions_length. run_m.
  destruct (has_nextBtn (page w)); simpl; [|reflexivity].
  rewrite Hqd, Hqs. reflexivity.
Qed.

Lemma showQuestion_run (w : World) (qd : QuizData) (qs : list Question)
    (index : Z) :
  quizData (this w) = Some qd -> questions qd = Some qs ->
  showQuestion index w
  = (Ok tt, if Z.of_nat (length qs) <=? index then w
            else with_log (log w ++ [ShowQuestion index]) w).
Proof.
  intros Hqd Hqs. unfold showQuestion.
  unfold bind at 1. unfold get_this at 1. rewrite Hqd.
  unfold bind at 1. rewrite (questions_length_run w qd qs Hqd Hqs).
  destruct (Z.of_nat (length qs) <=? index); [reflexivity|].
  unfold bind, emit.
  set (w' := {| this := this w; page := page w; timers := timers w;
                log := log w ++ [ShowQuestion index] |}).
  rewrite (updateNavigationButtons_run w' qd qs Hqd Hqs). reflexivity.
Qed.

(** [showQuestion] never writes the engine object or the timer queue. *)
Lemma showQuestion_exec (w : World) (index : Z) :
  exists l, exec (showQuestion index) w = with_log l w.
Proof.
  unfold showQuestion, questions_length, exec.
  unfold bind at 1. unfold get_this at 1.
  destruct (quizData (this w)) as [qd|] eqn:Hqd;
    [|exists (log w); simpl; by rewrite <- (world_eta w) at 1].
  unfold bind at 1. unfold bind at 1. unfold get_this at 1. rewrite Hqd.
  destruct (questions qd) as [qs|] eqn:Hqs;
    [|exists (log w); simpl; by rewrite <- (world_eta w) at 1].
  unfold ret at 1.
  destruct (Z.of_nat (length qs) <=? index);
    [exists (log w); simpl; by rewrite <- (world_eta w) at 1|].
  unfold bind, emit.
  set (w' := {| this := this w; page := page w; timers := timers w;
                log := log w ++ [ShowQuestion index] |}).
  rewrite (updateNavigationButtons_run w' qd qs Hqd Hqs).
  by exists (log w ++ [ShowQuestion index]).
Qed.

Lemma showQuestion_this (w : World) (index : Z) :
  this (exec (showQuestion index) w) = this w
  /\ timers (exec (showQuestion index) w) = timers w
  /\ page (exec (showQuestion index) w) = page w.
Proof.
  destruct (showQuestion_exec w index) as [l ->]. by simpl.
Qed.

Lemma getResultLevel_run (w : World) (qd : QuizData) :
  quizData (this w) = Some qd ->
  getResultLevel w
  = (Ok (level_for (scoring qd) (sum_of_weights (answers (this w)))),
     with_this (set_totalScore (sum_of_weights (answers (this w))) (this w)) w).
Proof.
  intros Hqd. unfold getResultLevel.
  unfold bind at 1. rewrite calculateScore_run.
  unfold bind, get_this, ret; simpl. rewrite Hqd. reflexivity.
Qed.

(** Whatever the page, [completeQuiz] leaves the engine object completed
    with the recomputed score, and touches no timer. *)
Lemma completeQuiz_exec (w : World) (qd : QuizData) :
  quizData (this w) = Some qd ->
  exists l,
    exec completeQuiz w
    = with_log l
        (with_this
           (set_isQuizCompleted true
              (set_totalScore (sum_of_weights (answers (this w))) (this w)))
           w).
Proof.
  intros Hqd. unfold completeQuiz, exec.
  unfold bind at 1. unfold set_this at 1.
  unfold bind at 1. rewrite calculateScore_run.
  unfold bind at 1.
  erewrite getResultLevel_run by (simpl; exact Hqd).
  unfold displayResults, announceToScreenReader. run_m.
  destruct (has_quiz_container (page w)); simpl; [|by eexists].
  destruct (has_resultsSection (page w)), (has_HealthCheckPro (page w));
    simpl; by eexists.
Qed.

Lemma completeQuiz_this (w : World) (qd : QuizData) :
  quizData (this w) = Some qd ->
  this (exec completeQuiz w)
  = set_isQuizCompleted true
      (set_totalScore (sum_of_weights (answers (this w))) (this w))
  /\ timers (exec completeQuiz w) = timers w.
Proof.
  intros Hqd. destruct (completeQuiz_exec w qd Hqd) as [l ->]. by simpl.
Qed.

Lemma completeQuiz_run (w : World) (qd : QuizData) :
  quizData (this w) = Some qd ->
  has_quiz_container (page w) = true ->
  has_resultsSection (page w) = true ->
  completeQuiz w
  = (Ok tt,
     {| this := set_isQuizCompleted true
                  (set_totalScore (sum_of_weights (answers (this w))) (this w));
        page := page w;
        timers := timers w;
        log := log w
               ++ completion_trace (this w) qd (has_HealthCheckPro (page w)) |}).
Proof.
  intros Hqd Hc Hr. unfold completeQuiz.
  unfold bind at 1. unfold set_this at 1.
  unfold bind at 1. rewrite calculateScore_run.
  unfold bind at 1.
  erewrite getResultLevel_run by (simpl; exact Hqd).
  unfold displayResults, announceToScreenReader, completion_trace. run_m.
  rewrite Hc, Hr; simpl.
  destruct (has_HealthCheckPro (page w)); simpl;
    rewrite <- ?app_assoc; reflexivity.
Qed.

Lemma bind_run {A B} (m : M A) (k : A -> M B) (w w' : World) (a : A) :
  m w = (Ok a, w') -> bind m k w = k a w'.
Proof. intros H. unfold bind. rewrite H. reflexivity. Qed.

Lemma nextQuestion_blocked (w : World) :
  answered (this w) = false -> nextQuestion w = (Ok tt, w).
Proof.
  intros Hna. unfold nextQuestion.
  rewrite (bind_run _ _ _ _ _ (canProceed_run w)), Hna. reflexivity.
Qed.

Lemma nextQuestion_advance (w : World) (qd : QuizData) (qs : list Question) :
  quizData (this w) = Some qd -> questions qd = Some qs ->
  answered (this w) = true ->
  currentQuestion (this w) < Z.of_nat (length qs) - 1 ->
  nextQuestion w
  = (Ok tt,
     with_log (log w ++ [ShowQuestion (currentQuestion (this w) + 1)])
       (with_this (set_currentQuestion (currentQuestion (this w) + 1) (this w))
          w)).
Proof.
  intros Hqd Hqs Ha Hlt. unfold nextQuestion.
  rewrite (bind_run _ _ _ _ _ (canProceed_run w)), Ha. cbn [negb].
  rewrite (bind_run get_this _ w w (this w) eq_refl).
  rewrite (bind_run _ _ _ _ _ (questions_length_run w qd qs Hqd Hqs)).
  destruct (Z.ltb_spec (currentQuestion (this w)) (Z.of_nat (length qs) - 1));
    [|lia].
  unfold bind at 1. unfold set_this at 1.
  erewrite showQuestion_run by (simpl; eassumption).
  destruct (Z.leb_spec (Z.of_nat (length qs)) (currentQuestion (this w) + 1));
    [lia|].
  reflexivity.
Qed.

Lemma nextQuestion_complete (w : World) (qd : QuizData) (qs : list Question) :
  quizData (this w) = Some qd -> questions qd = Some qs ->
  answered (this w) = true ->
  Z.of_nat (length qs) - 1 <= currentQuestion (this w) ->
  nextQuestion w = completeQuiz w.
Proof.
  intros Hqd Hqs Ha Hge. unfold nextQuestion.
  rewrite (bind_run _ _ _ _ _ (canProceed_run w)), Ha. cbn [negb].
  rewrite (bind_run get_this _ w w (this w) eq_refl).
  rewrite (bind_run _ _ _ _ _ (questions_length_run w qd qs Hqd Hqs)).
  destruct (Z.ltb_spec (currentQuestion (this w)) (Z.of_nat (length qs) - 1));
    [lia|].
  reflexivity.
Qed.

(** ** Forward navigation *)

(** C1 (as the code has it).  [nextQuestion] does nothing unless the
    current question has a recorded answer.  With an answer at index
    [i < N-1] it moves to [i+1] and shows that question.  With an answer at
    the last index it completes the quiz: the completed flag is set,
    [totalScore] becomes the sum of the recorded weights, and in a page with
    the quiz container and the results section one completion report is
    emitted.  There is no guard on the completed flag: a further
    [nextQuestion] on the completed session leaves the engine object as it
    is and emits the completion report again. *)
Theorem C1_nextQuestion_transitions (w : World) (qd : QuizData)
    (qs : list Question) :
  quizData (this w) = Some qd ->
  questions qd = Some qs ->
  (answered (this w) = false -> nextQuestion w = (Ok tt, w))
  /\ (answered (this w) = true ->
      currentQuestion (this w) < Z.of_nat (length qs) - 1 ->
      nextQuestion w
      = (Ok tt,
         with_log (log w ++ [ShowQuestion (currentQuestion (this w) + 1)])
           (with_this
              (set_currentQuestion (currentQuestion (this w) + 1) (this w))
              w)))
  /\ (answered (this w) = true ->
      currentQuestion (this w) = Z.of_nat (length qs) - 1 ->
      let done :=
        set_isQuizCompleted true
          (set_totalScore (sum_of_weights (answers (this w))) (this w)) in
      let report :=
        completion_trace (this w) qd (has_HealthCheckPro (page w)) in
      this (exec nextQuestion w) = done
      /\ timers (exec nextQuestion w) = timers w
      /\ (has_quiz_container (page w) = true ->
          has_resultsSection (page w) = true ->
          nextQuestion w
          = (Ok tt, with_log (log w ++ report) (with_this done w))
          /\ nextQuestion (exec nextQuestion w)
             = (Ok tt,
                with_log (log w ++ report ++ report) (with_this done w)))).
Proof.
  intros Hqd Hqs. split; [apply nextQuestion_blocked|].
  split; [apply (nextQuestion_advance w qd qs Hqd Hqs)|].
  intros Ha Hi done report.
  assert (Hnext : nextQuestion w = completeQuiz w)
    by (apply (nextQuestion_complete w qd qs Hqd Hqs Ha); lia).
  unfold exec. rewrite Hnext.
  destruct (completeQuiz_this w qd Hqd) as [Hthis Htimers].
  split; [exact Hthis|]. split; [exact Htimers|].
  intros Hc Hr.
  rewrite (completeQuiz_run w qd Hqd Hc Hr). split; [reflexivity|].
  cbn [snd].
  set (w' := {| this := _; page := _; timers := _; log := _ |}).
  assert (Hnext' : nextQuestion w' = completeQuiz w').
  { apply (nextQuestion_complete w' qd qs); subst w'; simpl; try assumption.
    lia. }
  rewrite Hnext'.
  rewrite (completeQuiz_run w' qd) by (subst w'; simpl; assumption).
  subst w' done report. unfold with_log, with_this; simpl.
  rewrite <- app_assoc. reflexivity.
Qed.

Lemma C1_nextQuestion_transitions_witness :
  quizData (this Demo.answered1) = Some (Demo.quiz 1 2 4 10)
  /\ answered (this Demo.answered1) = true
  /\ isQuizCompleted (this (exec nextQuestion Demo.answered1)) = true
  /\ totalScore (this (exec nextQuestion Demo.answered1)) = 3.
Proof.
  assert (H1 : quizData (this Demo.answered1) = Some (Demo.quiz 1 2 4 10))
    by reflexivity.
  assert (H2 : questions (Demo.quiz 1 2 4 10) = Some [Demo.question])
    by reflexivity.
  assert (H3 : answered (this Demo.answered1) = true)
    by (vm_compute; reflexivity).
  assert (H4 : currentQuestion (this Demo.answered1)
               = Z.of_nat (length [Demo.question]) - 1) by reflexivity.
  destruct (C1_nextQuestion_transitions Demo.answered1 _ _ H1 H2)
    as (_ & _ & H).
  destruct (H H3 H4) as (Hthis & _).
  split; [exact H1|]. split; [exact H3|].
  rewrite Hthis. split; [reflexivity | vm_compute; reflexivity].
Defined.

(** C1, against the wording of the specification: on a completed
    one-question session a further [nextQuestion] is not a no-op; the
    completion event is emitted a second time. *)
Lemma C1_next_after_completion_reports_again :
  isQuizCompleted (this Demo.completed1) = true
  /\ completions (log Demo.completed1) = 1%nat
  /\ completions (log (exec nextQuestion Demo.completed1)) = 2%nat
  /\ exec nextQuestion Demo.completed1 <> Demo.completed1.
Proof.
  split; [vm_compute; reflexivity|].
  split; [vm_compute; reflexivity|].
  split; [vm_compute; reflexivity|].
  intros Heq.
  apply (f_equal (fun w => completions (log w))) in Heq.
  vm_compute in Heq. discriminate Heq.
Qed.

(** ** Selecting an answer *)

Lemma selectAnswer_run (w : World) (b : Button) (questionDiv : QuestionDiv)
    (qd : QuizData) (qs : list Question) :
  closest_question b = Some questionDiv ->
  quizData (this w) = Some qd -> questions qd = Some qs ->
  selectAnswer (Some b) w
  = (Ok tt,
     {| this := store_answer (questionIndex_of questionDiv) (choice_answer b)
                  (this w);
        page := page w;
        timers := timers w
                  ++ (if bool_decide (autoAdvance qd = Some false) then []
                      else [AutoAdvance]);
        log := log w ++ [Announce (Selected (text (choice_answer b)))] |}).
Proof.
  intros Hb Hqd Hqs. unfold selectAnswer. rewrite Hb.
  unfold bind at 1. unfold set_this at 1.
  set (w1 := {| this := _; page := _; timers := _; log := _ |}).
  rewrite (bind_run _ _ _ _ _ (updateNavigationButtons_run w1 qd qs Hqd Hqs)).
  rewrite (bind_run get_this _ w1 w1 (this w1) eq_refl).
  subst w1. cbn [this quizData store_answer set_answers]. rewrite Hqd.
  unfold announceToScreenReader. run_m.
  destruct (bool_decide (autoAdvance qd = Some false)); simpl;
    rewrite ?app_nil_r; reflexivity.
Qed.

Lemma selectScaleAnswer_run (w : World) (b : Button)
    (questionDiv : QuestionDiv) (qd : QuizData) (qs : list Question) :
  closest_question b = Some questionDiv ->
  quizData (this w) = Some qd -> questions qd = Some qs ->
  selectScaleAnswer (Some b) w
  = (Ok tt,
     {| this := store_answer (questionIndex_of questionDiv) (scale_answer b)
                  (this w);
        page := page w;
        timers := timers w;
        log := log w ++ [Announce (SelectedScale (dataset_value b))] |}).
Proof.
  intros Hb Hqd Hqs. unfold selectScaleAnswer. rewrite Hb.
  unfold bind at 1. unfold set_this at 1.
  set (w1 := {| this := _; page := _; timers := _; log := _ |}).
  rewrite (bind_run _ _ _ _ _ (updateNavigationButtons_run w1 qd qs Hqd Hqs)).
  reflexivity.
Qed.

(** Whether or not it throws later, [selectScaleAnswer] has stored the
    answer. *)
Lemma selectScaleAnswer_this (w : World) (b : Button)
    (questionDiv : QuestionDiv) :
  closest_question b = Some questionDiv ->
  this (exec (selectScaleAnswer (Some b)) w)
  = store_answer (questionIndex_of questionDiv) (scale_answer b) (this w).
Proof.
  intros Hb. unfold selectScaleAnswer, exec. rewrite Hb.
  unfold bind at 1. unfold set_this at 1.
  set (w1 := {| this := _; page := _; timers := _; log := _ |}).
  pose proof (updateNavigationButtons_exec w1) as Hu. unfold exec in Hu.
  unfold bind at 1.
  destruct (updateNavigationButtons w1) as [[[]|e] w2]; simpl in Hu; subst w2;
    reflexivity.
Qed.

(** C2 (as the code has it).  [selectAnswer] and [selectScaleAnswer] do not
    compare the button's question with the current one: for a button of any
    question index [j], also [j] different from the current index, the
    answer is written at [j] (replacing what was there), nothing is thrown,
    and the current index, the completed flag and the stored score are left
    as they are.  [selectAnswer] also schedules an auto-advance unless the
    document sets [autoAdvance] to [false]. *)
Theorem C2_select_records_at_any_index (w : World) (b : Button)
    (questionDiv : QuestionDiv) (qd : QuizData) (qs : list Question) :
  closest_question b = Some questionDiv ->
  quizData (this w) = Some qd ->
  questions qd = Some qs ->
  let j := questionIndex_of questionDiv in
  (returns (selectAnswer (Some b)) w = true
   /\ answers (this (exec (selectAnswer (Some b)) w)) !! j
      = Some (choice_answer b)
   /\ (forall k, k <> j ->
       answers (this (exec (selectAnswer (Some b)) w)) !! k
       = answers (this w) !! k)
   /\ this (exec (selectAnswer (Some b)) w)
      = set_answers (<[j := choice_answer b]> (answers (this w))) (this w))
  /\ (returns (selectScaleAnswer (Some b)) w = true
      /\ answers (this (exec (selectScaleAnswer (Some b)) w)) !! j
         = Some (scale_answer b)
      /\ (forall k, k <> j ->
          answers (this (exec (selectScaleAnswer (Some b)) w)) !! k
          = answers (this w) !! k)
      /\ this (exec (selectScaleAnswer (Some b)) w)
         = set_answers (<[j := scale_answer b]> (answers (this w))) (this w)).
Proof.
  intros Hb Hqd Hqs j. unfold returns, exec.
  rewrite (selectAnswer_run w b questionDiv qd qs Hb Hqd Hqs).
  rewrite (selectScaleAnswer_run w b questionDiv qd qs Hb Hqd Hqs).
  cbn [fst snd this store_answer set_answers answers].
  repeat split.
  - apply lookup_insert_eq.
  - intros k Hk. apply lookup_insert_ne. intros E. apply Hk. symmetry. exact E.
  - apply lookup_insert_eq.
  - intros k Hk. apply lookup_insert_ne. intros E. apply Hk. symmetry. exact E.
Qed.

Lemma C2_select_records_at_any_index_witness :
  currentQuestion (this Demo.at_first) = 0
  /\ questionIndex_of {| dataset_question := Some "2" |} = Some 1
  /\ answers (this (exec (selectAnswer (Some (Demo.answer_button "2" "3")))
                      Demo.at_first)) !! Some 1
     = Some (choice_answer (Demo.answer_button "2" "3")).
Proof.
  split; [reflexivity|]. split; [reflexivity|].
  exact (proj1 (proj2 (proj1
    (C2_select_records_at_any_index Demo.at_first
       (Demo.answer_button "2" "3") {| dataset_question := Some "2" |}
       (Demo.quiz 2 2 4 10) (replicate 2 Demo.question)
       eq_refl eq_refl eq_refl)))).
Defined.

(** C2, against the wording of the specification: with the engine at
    question 0, selecting an answer of question 1 is not rejected; the
    answer is stored at index 1 (and an auto-advance is scheduled). *)
Lemma C2_select_other_index_is_stored :
  currentQuestion (this Demo.at_first) = 0
  /\ answers (this Demo.at_first) !! Some 1 = None
  /\ answers (this (step Demo.at_first
                      (ClickAnswer (Demo.answer_button "2" "3")))) !! Some 1
     = Some {| value := Some "yes"; weight := 3; text := Some "Yes" |}
  /\ answers (this (step Demo.at_first
                      (ClickScale (Demo.scale_button "2" "4" None)))) !! Some 1
     = Some {| value := Some "4"; weight := 4; text := Some "Scale: 4" |}
  /\ step Demo.at_first (ClickAnswer (Demo.answer_button "2" "3"))
     <> Demo.at_first.
Proof.
  split; [reflexivity|].
  split; [vm_compute; reflexivity|].
  split; [vm_compute; reflexivity|].
  split; [vm_compute; reflexivity|].
  intros Heq. apply (f_equal (fun w => length (timers w))) in Heq.
  vm_compute in Heq. discriminate Heq.
Qed.

(** ** Classification *)

Lemma level_for_low (s : Scoring) (score : Z) :
  level_for s score = low <-> score <= bucket_max (scoring_low s).
Proof.
  unfold level_for.
  destruct (Z.leb_spec score (bucket_max (scoring_low s)));
    [tauto|].
  destruct (Z.leb_spec score (bucket_max (scoring_moderate s)));
    split; (discriminate || lia).
Qed.

Lemma level_for_moderate (s : Scoring) (score : Z) :
  level_for s score = moderate
  <-> bucket_max (scoring_low s) < score <= bucket_max (scoring_moderate s).
Proof.
  unfold level_for.
  destruct (Z.leb_spec score (bucket_max (scoring_low s)));
    [split; (discriminate || lia)|].
  destruct (Z.leb_spec score (bucket_max (scoring_moderate s)));
    split; (discriminate || lia || tauto).
Qed.

Lemma level_for_high (s : Scoring) (score : Z) :
  level_for s score = high
  <-> bucket_max (scoring_low s) < score
      /\ bucket_max (scoring_moderate s) < score.
Proof.
  unfold level_for.
  destruct (Z.leb_spec score (bucket_max (scoring_low s)));
    [split; (discriminate || lia)|].
  destruct (Z.leb_spec score (bucket_max (scoring_moderate s)));
    split; (discriminate || lia || tauto).
Qed.

Lemma ascending_ordered (s : Scoring) :
  bucket_max (scoring_low s) <= bucket_max (scoring_moderate s) ->
  bucket_max (scoring_moderate s) <= bucket_max (scoring_high s) ->
  Spec.ascending (Spec.scoringRules s) = Spec.scoringRules s.
Proof.
  intros H1 H2. unfold Spec.ascending, Spec.scoringRules. simpl.
  destruct (Z.leb_spec (bucket_max (scoring_moderate s))
              (bucket_max (scoring_high s))); [|lia].
  simpl.
  destruct (Z.leb_spec (bucket_max (scoring_low s))
              (bucket_max (scoring_moderate s))); [|lia].
  reflexivity.
Qed.

Lemma classify_ordered (s : Scoring) (score : Z) :
  bucket_max (scoring_low s) <= bucket_max (scoring_moderate s) ->
  bucket_max (scoring_moderate s) <= bucket_max (scoring_high s) ->
  Spec.classify score (Spec.scoringRules s) = Some (level_for s score).
Proof.
  intros H1 H2. unfold Spec.classify.
  rewrite (ascending_ordered s H1 H2).
  unfold Spec.scoringRules, level_for. simpl.
  destruct (Z.leb_spec score (bucket_max (scoring_low s))); [reflexivity|].
  destruct (Z.leb_spec score (bucket_max (scoring_moderate s)));
    [reflexivity|].
  destruct (Z.leb_spec score (bucket_max (scoring_high s))); reflexivity.
Qed.

(** C3 (as the code has it).  [getResultLevel] recomputes the score and
    tests the buckets in the fixed order [low], [moderate]: it returns [low]
    when the score is at most [low.max], else [moderate] when the score is
    at most [moderate.max], else [high]; [high.max] is never read and the
    buckets are not sorted.  When [low.max <= moderate.max <= high.max]
    this is the first bucket by ascending [max] whose [max] is at least the
    score, or the bucket of largest [max] when there is none.  With
    [low.max = 5] and [moderate.max = 10], score 5 gives [low], 6 gives
    [moderate] and 11 gives [high]. *)
Theorem C3_getResultLevel_fixed_order (w : World) (qd : QuizData) :
  quizData (this w) = Some qd ->
  let s := scoring qd in
  let score := sum_of_weights (answers (this w)) in
  let lo := bucket_max (scoring_low s) in
  let mo := bucket_max (scoring_moderate s) in
  let hi := bucket_max (scoring_high s) in
  (exists l, fst (getResultLevel w) = Ok l
     /\ l = level_for s score
     /\ (l = low <-> score <= lo)
     /\ (l = moderate <-> lo < score <= mo)
     /\ (l = high <-> lo < score /\ mo < score)
     /\ (lo <= mo -> mo <= hi ->
         Spec.classify score (Spec.scoringRules s) = Some l)
     /\ (lo = 5 -> mo = 10 ->
         (score = 5 -> l = low)
         /\ (score = 6 -> l = moderate)
         /\ (score = 11 -> l = high))).
Proof.
  intros Hqd s score lo mo hi.
  exists (level_for s score).
  rewrite (getResultLevel_run w qd Hqd). cbn [fst].
  split; [reflexivity|]. split; [reflexivity|].
  split; [apply level_for_low|].
  split; [apply level_for_moderate|].
  split; [apply level_for_high|].
  split; [apply classify_ordered|].
  intros Hlo Hmo. repeat split; intros Hs.
  - apply level_for_low. fold lo. lia.
  - apply level_for_moderate. fold lo mo. lia.
  - apply level_for_high. fold lo mo. lia.
Qed.

Lemma C3_getResultLevel_fixed_order_witness :
  quizData (this Demo.answered1) = Some (Demo.quiz 1 2 4 10)
  /\ exists l, fst (getResultLevel Demo.answered1) = Ok l /\ l = moderate.
Proof.
  split; [reflexivity|].
  destruct (C3_getResultLevel_fixed_order Demo.answered1
              (Demo.quiz 1 2 4 10) eq_refl) as (l & Hl & Heq & _).
  exists l. split; [exact Hl|].
  rewrite Heq. vm_compute. reflexivity.
Defined.

(** C3, against the wording of the specification: with [low.max = 10],
    [moderate.max = 5], [high.max = 20] and score 3, evaluation by ascending
    [max] meets the [moderate] bucket first, while the code answers [low]. *)
Lemma C3_unordered_buckets_differ :
  sum_of_weights (answers (this Demo.unordered_buckets)) = 3
  /\ Spec.scoringRules (Demo.scoring_of 10 5 20)
     = [(low, 10); (moderate, 5); (high, 20)]
  /\ fst (getResultLevel Demo.unordered_buckets) = Ok low
  /\ Spec.classify 3 (Spec.scoringRules (Demo.scoring_of 10 5 20))
     = Some moderate.
Proof.
  repeat split; vm_compute; reflexivity.
Qed.

(** ** Scoring *)






(** The end-to-end run of the specification: two questions with weights 2
    and 3, limits 2 and 4; answering both and pressing Next twice completes
    the quiz with score 5 and level [high]. *)
Example two_question_run :
  isQuizCompleted (this Demo.completed2) = true
  /\ totalScore (this Demo.completed2) = 5
  /\ fst (getResultLevel Demo.completed2) = Ok high.
Proof. repeat split; vm_compute; reflexivity. Qed.

(** ** Backward navigation *)

Lemma previousQuestion_first (w : World) :
  currentQuestion (this w) <= 0 -> previousQuestion w = (Ok tt, w).
Proof.
  intros Hi. unfold previousQuestion.
  rewrite (bind_run get_this _ w w (this w) eq_refl).
  destruct (Z.ltb_spec 0 (currentQuestion (this w))); [lia|reflexivity].
Qed.

Lemma previousQuestion_back (w : World) :
  0 < currentQuestion (this w) ->
  previousQuestion w
  = showQuestion (currentQuestion (this w) - 1)
      (with_this (set_currentQuestion (currentQuestion (this w) - 1) (this w))
         w).
Proof.
  intros Hi. unfold previousQuestion.
  rewrite (bind_run get_this _ w w (this w) eq_refl).
  destruct (Z.ltb_spec 0 (currentQuestion (this w))); [|lia].
  reflexivity.
Qed.

(** C5 (as the code has it).  [previousQuestion] does nothing at index 0.
    At an index [i > 0] it moves to [i-1], leaving the answers, the score and
    the completed flag as they are; it does so in a completed session as
    well, since the completed flag is not consulted.  On a loaded document
    it never throws. *)
Theorem C5_previousQuestion_transitions (w : World) :
  (currentQuestion (this w) = 0 -> previousQuestion w = (Ok tt, w))
  /\ (0 < currentQuestion (this w) ->
      this (exec previousQuestion w)
      = set_currentQuestion (currentQuestion (this w) - 1) (this w)
      /\ isQuizCompleted (this (exec previousQuestion w))
         = isQuizCompleted (this w)
      /\ timers (exec previousQuestion w) = timers w)
  /\ (forall qd qs,
      quizData (this w) = Some qd -> questions qd = Some qs ->
      returns previousQuestion w = true).
Proof.
  split; [intros Hi; apply previousQuestion_first; lia|].
  split.
  - intros Hi. unfold exec. rewrite (previousQuestion_back w Hi).
    set (w' := with_this _ w).
    destruct (showQuestion_this w' (currentQuestion (this w) - 1))
      as (Hthis & Htimers & _).
    unfold exec in Hthis, Htimers. rewrite Hthis, Htimers.
    repeat split.
  - intros qd qs Hqd Hqs. unfold returns.
    destruct (Z.ltb_spec 0 (currentQuestion (this w))) as [Hi|Hi].
    + rewrite (previousQuestion_back w Hi).
      erewrite showQuestion_run by (simpl; eassumption). reflexivity.
    + rewrite (previousQuestion_first w Hi). reflexivity.
Qed.

Lemma C5_previousQuestion_transitions_witness :
  previousQuestion Demo.at_first = (Ok tt, Demo.at_first)
  /\ currentQuestion (this Demo.completed2) = 1
  /\ currentQuestion (this (exec previousQuestion Demo.completed2)) = 0.
Proof.
  split; [exact (proj1 (C5_previousQuestion_transitions Demo.at_first)
                   eq_refl)|].
  assert (Hi : 0 < currentQuestion (this Demo.completed2))
    by (vm_compute; reflexivity).
  destruct (proj1 (proj2 (C5_previousQuestion_transitions Demo.completed2)) Hi)
    as (Hthis & _).
  split; [vm_compute; reflexivity|].
  rewrite Hthis. vm_compute. reflexivity.
Defined.

(** C5, against the wording of the specification: in a completed
    two-question session [previousQuestion] is not a no-op; the engine goes
    back to question 0 while remaining completed. *)
Lemma C5_previous_moves_when_completed :
  isQuizCompleted (this Demo.completed2) = true
  /\ currentQuestion (this Demo.completed2) = 1
  /\ currentQuestion (this (exec previousQuestion Demo.completed2)) = 0
  /\ isQuizCompleted (this (exec previousQuestion Demo.completed2)) = true
  /\ exec previousQuestion Demo.completed2 <> Demo.completed2.
Proof.
  split; [vm_compute; reflexivity|].
  split; [vm_compute; reflexivity|].
  split; [vm_compute; reflexivity|].
  split; [vm_compute; reflexivity|].
  intros Heq. apply (f_equal (fun w => currentQuestion (this w))) in Heq.
  vm_compute in Heq. discriminate Heq.
Qed.

(** ** Export *)

Lemma exportResults_run (now : string) (w : World) (qd : QuizData) :
  isQuizCompleted (this w) = true ->
  quizData (this w) = Some qd ->
  let total := sum_of_weights (answers (this w)) in
  exportResults now w
  = (Ok (Some {| res_tool := toolName (this w);
                 res_score := totalScore (this w);
                 res_level := level_for (scoring qd) total;
                 res_answers := answers (this w);
                 res_completedAt := now;
                 res_recommendations :=
                   recommendations qd (level_for (scoring qd) total) |}),
     with_this (set_totalScore total (this w)) w).
Proof.
  intros Hc Hqd total. unfold exportResults.
  rewrite (bind_run get_this _ w w (this w) eq_refl). rewrite Hc. cbn [negb].
  rewrite (bind_run _ _ _ _ _ (getResultLevel_run w qd Hqd)).
  set (w1 := with_this _ w).
  rewrite (bind_run get_this _ w1 w1 (this w1) eq_refl).
  rewrite (bind_run _ _ _ _ _ (getResultLevel_run w1 qd Hqd)).
  set (w2 := with_this _ w1).
  rewrite (bind_run get_this _ w2 w2 (this w2) eq_refl).
  subst w2 w1. cbn [this with_this quizData set_totalScore answers].
  rewrite Hqd. reflexivity.
Qed.

(** C6 (as the code has it).  [exportResults] returns [null] unless the
    quiz is completed.  On a completed session it returns a snapshot whose
    [score] is the stored [totalScore], read before the level is computed,
    and computing the level stores the recomputed sum in [totalScore].  Two
    successive exports therefore agree on level, answers and
    recommendations, the second carries the sum of the recorded weights as
    score, and they agree on the score when the stored [totalScore] is that
    sum (as it is from completion until another answer is selected). *)
Theorem C6_exportResults_snapshots (now1 now2 : string) (w : World) :
  (isQuizCompleted (this w) = false -> exportResults now1 w = (Ok None, w))
  /\ (forall qd,
      isQuizCompleted (this w) = true ->
      quizData (this w) = Some qd ->
      exists r1 r2,
        fst (exportResults now1 w) = Ok (Some r1)
        /\ fst (exportResults now2 (exec (exportResults now1) w))
           = Ok (Some r2)
        /\ res_level r1 = res_level r2
        /\ res_answers r1 = res_answers r2
        /\ res_recommendations r1 = res_recommendations r2
        /\ res_tool r1 = res_tool r2
        /\ res_score r1 = totalScore (this w)
        /\ res_score r2 = sum_of_weights (answers (this w))
        /\ (totalScore (this w) = sum_of_weights (answers (this w)) ->
            res_score r1 = res_score r2)).
Proof.
  split.
  - intros Hc. unfold exportResults.
    rewrite (bind_run get_this _ w w (this w) eq_refl). rewrite Hc.
    reflexivity.
  - intros qd Hc Hqd. unfold exec.
    rewrite (exportResults_run now1 w qd Hc Hqd). cbn [fst snd].
    set (w1 := with_this _ w).
    rewrite (exportResults_run now2 w1 qd Hc Hqd). cbn [fst].
    eexists. eexists.
    split; [reflexivity|]. split; [reflexivity|].
    subst w1. simpl. repeat split. intros Heq. exact Heq.
Qed.

Lemma C6_exportResults_snapshots_witness :
  isQuizCompleted (this Demo.completed2) = true
  /\ totalScore (this Demo.completed2)
     = sum_of_weights (answers (this Demo.completed2))
  /\ exists r1 r2,
       fst (exportResults "t1" Demo.completed2) = Ok (Some r1)
       /\ fst (exportResults "t2"
                 (exec (exportResults "t1") Demo.completed2))
          = Ok (Some r2)
       /\ res_score r1 = res_score r2
       /\ res_level r1 = res_level r2.
Proof.
  assert (Hc : isQuizCompleted (this Demo.completed2) = true)
    by (vm_compute; reflexivity).
  assert (Hqd : quizData (this Demo.completed2) = Some (Demo.quiz 2 2 4 10))
    by reflexivity.
  assert (Ht : totalScore (this Demo.completed2)
               = sum_of_weights (answers (this Demo.completed2)))
    by (vm_compute; reflexivity).
  split; [exact Hc|]. split; [exact Ht|].
  destruct (proj2 (C6_exportResults_snapshots "t1" "t2" Demo.completed2)
              _ Hc Hqd)
    as (r1 & r2 & H1 & H2 & Hl & _ & _ & _ & _ & _ & Hs).
  exists r1, r2. repeat split; auto.
Defined.

(** C6, against the wording of the specification: in a completed session
    whose answer was selected again after completion, two successive exports
    with nothing in between return different scores. *)
Lemma C6_successive_exports_differ :
  isQuizCompleted (this Demo.reanswered) = true
  /\ res_score <$> exported (exportResults "t" Demo.reanswered) = Some 2
  /\ res_score <$>
       exported (exportResults "t" (exec (exportResults "t") Demo.reanswered))
     = Some 5.
Proof.
  repeat split; vm_compute; reflexivity.
Qed.

(** ** Pending auto-advance callbacks *)

Create HintDb pending.

Lemma keeps_ret {A} (a : A) : keeps_pending (ret a).
Proof. intros w. reflexivity. Qed.

Lemma keeps_throw {A} (e : Exn) : keeps_pending (@throw A e).
Proof. intros w. reflexivity. Qed.

Lemma keeps_get_this : keeps_pending get_this.
Proof. intros w. reflexivity. Qed.

Lemma keeps_get_page : keeps_pending get_page.
Proof. intros w. reflexivity. Qed.

Lemma keeps_set_this (f : SymptomChecker -> SymptomChecker) :
  keeps_pending (set_this f).
Proof. intros w. reflexivity. Qed.

Lemma keeps_emit (e : Effect) : keeps_pending (emit e).
Proof. intros w. reflexivity. Qed.

Lemma keeps_setTimeout (t : Task) : keeps_pending (setTimeout t).
Proof. intros w. apply prefix_app_r. reflexivity. Qed.

Lemma keeps_bind {A B} (m : M A) (k : A -> M B) :
  keeps_pending m -> (forall a, keeps_pending (k a)) ->
  keeps_pending (bind m k).
Proof.
  intros Hm Hk w. unfold exec, bind.
  specialize (Hm w). unfold exec in Hm.
  destruct (m w) as [[a|e] w1]; simpl in *; [|exact Hm].
  etransitivity; [exact Hm|]. apply Hk.
Qed.

Lemma keeps_when (b : bool) (m : M unit) :
  keeps_pending m -> keeps_pending (when b m).
Proof. intros Hm. destruct b; [exact Hm|apply keeps_ret]. Qed.

#[local] Hint Resolve keeps_ret keeps_throw keeps_get_this keeps_get_page
  keeps_set_this keeps_emit keeps_setTimeout keeps_when : pending.

(** Splits a method along its binds and case distinctions. *)
Ltac keeps :=
  repeat first
    [ progress auto with pending
    | apply keeps_bind; [|intros ?]
    | apply keeps_when
    | match goal with
      | |- keeps_pending (match ?x with _ => _ end) => destruct x
      | |- keeps_pending (if ?b then _ else _) => destruct b
      end ].

Lemma keeps_questions_length : keeps_pending questions_length.
Proof. unfold questions_length. keeps. Qed.

Lemma keeps_canProceed : keeps_pending canProceed.
Proof. unfold canProceed. keeps. Qed.

#[local] Hint Resolve keeps_questions_length keeps_canProceed : pending.

Lemma keeps_updateNavigationButtons : keeps_pending updateNavigationButtons.
Proof. unfold updateNavigationButtons. keeps. Qed.

#[local] Hint Resolve keeps_updateNavigationButtons : pending.

Lemma keeps_showQuestion (index : Z) : keeps_pending (showQuestion index).
Proof. unfold showQuestion. keeps. Qed.

Lemma keeps_calculateScore : keeps_pending calculateScore.
Proof. unfold calculateScore. keeps. Qed.

#[local] Hint Resolve keeps_showQuestion keeps_calculateScore : pending.

Lemma keeps_getResultLevel : keeps_pending getResultLevel.
Proof. unfold getResultLevel. keeps. Qed.

#[local] Hint Resolve keeps_getResultLevel : pending.

Lemma keeps_completeQuiz : keeps_pending completeQuiz.
Proof.
  unfold completeQuiz, displayResults, announceToScreenReader. keeps.
Qed.

#[local] Hint Resolve keeps_completeQuiz : pending.

Lemma keeps_nextQuestion : keeps_pending nextQuestion.
Proof. unfold nextQuestion. keeps. Qed.

Lemma keeps_previousQuestion : keeps_pending previousQuestion.
Proof. unfold previousQuestion. keeps. Qed.

Lemma keeps_restartQuiz : keeps_pending restartQuiz.
Proof. unfold restartQuiz, announceToScreenReader. keeps. Qed.

Lemma keeps_selectAnswer (button : option Button) :
  keeps_pending (selectAnswer button).
Proof. unfold selectAnswer, announceToScreenReader. keeps. Qed.

Lemma keeps_selectScaleAnswer (button : option Button) :
  keeps_pending (selectScaleAnswer button).
Proof. unfold selectScaleAnswer, announceToScreenReader. keeps. Qed.

Lemma timer_fires_run (w : World) (ts : list Task) :
  timers w = AutoAdvance :: ts ->
  handle TimerFires w = autoAdvanceCallback (with_timers ts w).
Proof.
  intros Ht. unfold handle, bind, pop_timer. rewrite Ht. reflexivity.
Qed.

Lemma autoAdvanceCallback_run (w : World) :
  autoAdvanceCallback w
  = if answered (this w) then nextQuestion w else (Ok tt, w).
Proof.
  unfold autoAdvanceCallback.
  rewrite (bind_run _ _ _ _ _ (canProceed_run w)).
  destruct (answered (this w)); reflexivity.
Qed.

Lemma timer_fires_blocked (w : World) :
  answered (this w) = false ->
  step w TimerFires = with_timers (tail (timers w)) w.
Proof.
  intros Hna. destruct w as [sc p ts l]. simpl in Hna.
  destruct ts as [|[] ts]; [reflexivity|].
  unfold step, exec.
  rewrite (timer_fires_run
             {| this := sc; page := p; timers := AutoAdvance :: ts; log := l |}
             ts eq_refl), autoAdvanceCallback_run.
  cbn [this with_timers]. rewrite Hna. reflexivity.
Qed.

Lemma timers_fire_blocked (w : World) (n : nat) :
  answered (this w) = false ->
  this (run w (replicate n TimerFires)) = this w
  /\ log (run w (replicate n TimerFires)) = log w.
Proof.
  revert w. induction n as [|n IH]; intros w Hna; [by split|].
  unfold run in *. simpl. rewrite (timer_fires_blocked w Hna).
  apply (IH (with_timers (tail (timers w)) w)). exact Hna.
Qed.

(** Whatever the page, [restartQuiz] has reset the engine object. *)
Lemma restartQuiz_exec (w : World) :
  exists l,
    exec restartQuiz w
    = with_log l
        (with_this
           {| toolName := toolName (this w); quizData := quizData (this w);
              currentQuestion := 0; answers := ∅; totalScore := 0;
              isQuizCompleted := false |}
           w).
Proof.
  unfold restartQuiz, exec, announceToScreenReader.
  unfold bind at 1. unfold set_this at 1.
  unfold bind at 1. unfold set_this at 1.
  unfold bind at 1. unfold set_this at 1.
  unfold bind at 1. unfold set_this at 1.
  unfold bind at 1. unfold get_page at 1.
  cbn [page negb].
  destruct (has_quiz_container (page w)); cbn [negb]; [|by eexists].
  set (w1 := {| this := _; page := _; timers := _; log := _ |}).
  destruct (showQuestion_exec w1 0) as [l Hl]. unfold exec in Hl.
  unfold bind. destruct (showQuestion 0 w1) as [[[]|e] w2];
    simpl in Hl; subst w2; simpl; by eexists.
Qed.

(** C7 (as the code has it).  A schedule created by [selectAnswer] has no
    cancellation handle: the value of [setTimeout] is dropped and nothing
    clears a timer.  Selecting an answer (with auto-advance not switched
    off) appends one pending callback; no click (restart, Next, Previous,
    another selection) removes a pending callback; and a pending callback
    that comes due runs against whatever state is then current, calling
    [nextQuestion] there exactly when the then-current question has a
    recorded answer. *)
Theorem C7_schedules_are_never_cancelled (w : World) :
  (forall b questionDiv qd qs,
      closest_question b = Some questionDiv ->
      quizData (this w) = Some qd ->
      questions qd = Some qs ->
      autoAdvance qd <> Some false ->
      timers (step w (ClickAnswer b)) = timers w ++ [AutoAdvance])
  /\ (forall e, e <> TimerFires -> timers w `prefix_of` timers (step w e))
  /\ (forall ts,
      timers w = AutoAdvance :: ts ->
      step w TimerFires
      = if answered (this w) then exec nextQuestion (with_timers ts w)
        else with_timers ts w).
Proof.
  split; [|split].
  - intros b questionDiv qd qs Hb Hqd Hqs Hauto. unfold step, exec, handle.
    rewrite (selectAnswer_run w b questionDiv qd qs Hb Hqd Hqs). cbn [snd timers].
    rewrite bool_decide_eq_false_2 by exact Hauto. reflexivity.
  - intros e He. unfold step.
    destruct e; cbn [handle].
    + apply keeps_selectAnswer.
    + apply keeps_selectScaleAnswer.
    + apply keeps_nextQuestion.
    + apply keeps_previousQuestion.
    + apply keeps_restartQuiz.
    + congruence.
  - intros ts Hts. unfold step, exec.
    rewrite (timer_fires_run w ts Hts), autoAdvanceCallback_run.
    cbn [this with_timers]. destruct (answered (this w)); reflexivity.
Qed.

Lemma C7_schedules_are_never_cancelled_witness :
  timers Demo.answered1 = [AutoAdvance]
  /\ timers (step Demo.answered1 ClickRestart) <> [].
Proof.
  split; [reflexivity|].
  assert (He : ClickRestart <> TimerFires) by discriminate.
  pose proof (proj1 (proj2 (C7_schedules_are_never_cancelled Demo.answered1))
                ClickRestart He) as Hpre.
  intros Hnil. rewrite Hnil in Hpre.
  apply prefix_nil_inv in Hpre. discriminate Hpre.
Defined.

(** C7, against the wording of the specification. Restart does not
    invalidate the schedule made before it: the callback stays pending, and
    once the first question of the new session is answered it is that
    callback, first in the queue, that advances the new session. Manual
    navigation does not either: after one selection at question 0 and one
    press of Next the engine is at question 1, and the callback of that
    selection then moves it on to question 2. *)
Lemma C7_stale_callback_advances :
  timers (run (Demo.loaded 3 2 4 10)
            [ClickAnswer (Demo.answer_button "1" "2")]) = [AutoAdvance]
  /\ timers (run (Demo.loaded 3 2 4 10)
               [ClickAnswer (Demo.answer_button "1" "2"); ClickRestart])
     = [AutoAdvance]
  /\ currentQuestion (this Demo.restarted) = 0
  /\ timers Demo.restarted = [AutoAdvance; AutoAdvance]
  /\ currentQuestion (this (step Demo.restarted TimerFires)) = 1
  /\ currentQuestion (this Demo.went_back) = 1
  /\ timers Demo.went_back = [AutoAdvance]
  /\ currentQuestion (this (step Demo.went_back TimerFires)) = 2.
Proof.
  repeat split; vm_compute; reflexivity.
Qed.

(** ** The auto-advance callback *)

(** C10 (as the code has it).  When it comes due, the auto-advance callback
    reads [canProceed()] in the state of that moment and calls
    [nextQuestion] exactly when the question that is then current has a
    recorded answer, whichever state scheduled it.  So a callback that fires
    while the current question has no answer does nothing: after
    [restartQuiz], however many pending callbacks fire, the engine stays at
    question 0 with no answer, not completed, and nothing is emitted.  The
    callbacks pending at the restart stay pending. *)
Theorem C10_callback_rechecks_canProceed (w : World) :
  (forall ts,
      timers w = AutoAdvance :: ts ->
      handle TimerFires w
      = if answered (this w) then nextQuestion (with_timers ts w)
        else (Ok tt, with_timers ts w))
  /\ (forall n,
      answered (this w) = false ->
      this (run w (replicate n TimerFires)) = this w
      /\ log (run w (replicate n TimerFires)) = log w)
  /\ (forall n,
      let w' := step w ClickRestart in
      this (run w' (replicate n TimerFires)) = this w'
      /\ log (run w' (replicate n TimerFires)) = log w'
      /\ currentQuestion (this w') = 0
      /\ answers (this w') = ∅
      /\ isQuizCompleted (this w') = false
      /\ timers w `prefix_of` timers w').
Proof.
  split; [|split].
  - intros ts Hts.
    rewrite (timer_fires_run w ts Hts), autoAdvanceCallback_run.
    reflexivity.
  - intros n Hna. apply timers_fire_blocked. exact Hna.
  - intros n w'.
    assert (Hkeep : timers w `prefix_of` timers w')
      by apply keeps_restartQuiz.
    destruct (restartQuiz_exec w) as [l Hl].
    unfold w', step, handle in *. rewrite Hl in *. clear Hl.
    set (w1 := with_log l _) in *.
    assert (Hna : answered (this w1) = false) by reflexivity.
    destruct (timers_fire_blocked w1 n Hna) as [H1 H2].
    repeat split; assumption.
Qed.

(** C10, against the wording of the specification: the answers are cleared
    by a restart while a callback is pending, the first question is answered
    again, and the callback scheduled before the restart then advances the
    new session. *)
Lemma C10_stale_callback_after_restart :
  answers (this (run (Demo.loaded 2 2 4 10)
                   [ClickAnswer (Demo.answer_button "1" "2"); ClickRestart]))
  = ∅
  /\ timers (run (Demo.loaded 2 2 4 10)
               [ClickAnswer (Demo.answer_button "1" "2"); ClickRestart])
     = [AutoAdvance]
  /\ timers Demo.restarted_then_scaled = [AutoAdvance]
  /\ currentQuestion (this Demo.restarted_then_scaled) = 0
  /\ currentQuestion (this (step Demo.restarted_then_scaled TimerFires)) = 1.
Proof.
  repeat split; vm_compute; reflexivity.
Qed.

Lemma C10_callback_rechecks_canProceed_witness :
  timers Demo.restarted = [AutoAdvance; AutoAdvance]
  /\ answered (this Demo.restarted) = true
  /\ handle TimerFires Demo.restarted
     = nextQuestion (with_timers [AutoAdvance] Demo.restarted).
Proof.
  split; [reflexivity|].
  split; [vm_compute; reflexivity|].
  exact (proj1 (C10_callback_rechecks_canProceed Demo.restarted)
           [AutoAdvance] eq_refl).
Defined.

(** ** Loading *)

Lemma loadQuizData_empty (w : World) (status : Z) (d : QuizData) :
  questions d = Some [] ->
  loadQuizData (Response true status (Some (Some d))) w
  = (Throw (Error "Invalid quiz data structure"),
     with_this (set_quizData (Some d) (this w)) w).
Proof.
  intros Hq. unfold loadQuizData. cbn [negb].
  unfold bind, set_this, get_this. cbn [this quizData set_quizData].
  rewrite Hq. reflexivity.
Qed.

Lemma construct_empty (tool : string) (p : Page) (status : Z) (d : QuizData) :
  questions d = Some [] ->
  construct tool p (Response true status (Some (Some d)))
  = {| this := set_quizData (Some d) (new_SymptomChecker tool);
       page := p;
       timers := [];
       log := [ShowError
                 "Failed to load quiz data. Please refresh the page."] |}.
Proof.
  intros Hq. unfold construct, exec, init, try_catch.
  unfold bind at 1. rewrite (loadQuizData_empty _ status d Hq).
  reflexivity.
Qed.

(** C8 (as the code has it).  Loading a document that parses but has an
    empty [questions] array fails with the error "Invalid quiz data
    structure".  The error has no type of its own: the same error is thrown
    for a body that is [null] and for a document without [questions]; it
    differs from the failure of an unsuccessful response (an error "HTTP
    error! status: ..."), of an unreachable resource and of a body that does
    not parse.  [init] then installs no event listener and shows no
    question; it only reports the error.  The engine object, which the
    constructor created before the load, remains: it keeps the rejected
    document, at question 0 with no answer, not completed, with no timer
    pending. *)
Theorem C8_empty_questions_untyped_failure (tool : string) (p : Page)
    (status : Z) (d : QuizData) :
  questions d = Some [] ->
  let w0 := {| this := new_SymptomChecker tool; page := p;
               timers := []; log := [] |} in
  let f := Response true status (Some (Some d)) in
  fst (loadQuizData f w0) = Throw (Error "Invalid quiz data structure")
  /\ fst (loadQuizData (Response true status (Some None)) w0)
     = fst (loadQuizData f w0)
  /\ (forall d',
      questions d' = None ->
      fst (loadQuizData (Response true status (Some (Some d'))) w0)
      = fst (loadQuizData f w0))
  /\ (forall st body,
      fst (loadQuizData (Response false st body) w0)
      = Throw (Error ("HTTP error! status: " +:+ pretty st))
      /\ fst (loadQuizData (Response false st body) w0)
         <> fst (loadQuizData f w0))
  /\ (forall st,
      fst (loadQuizData (Response true st None) w0) = Throw SyntaxError
      /\ fst (loadQuizData (Response true st None) w0)
         <> fst (loadQuizData f w0))
  /\ fst (loadQuizData NetworkFailure w0) <> fst (loadQuizData f w0)
  /\ construct tool p f
     = {| this := {| toolName := tool; quizData := Some d;
                     currentQuestion := 0; answers := ∅; totalScore := 0;
                     isQuizCompleted := false |};
          page := p;
          timers := [];
          log := [ShowError
                    "Failed to load quiz data. Please refresh the page."] |}.
Proof.
  intros Hq w0 f. subst f.
  rewrite (loadQuizData_empty w0 status d Hq). cbn [fst].
  split; [reflexivity|].
  split; [reflexivity|].
  split.
  { intros d' Hq'. unfold loadQuizData. cbn [negb].
    unfold bind, set_this, get_this. cbn [this quizData set_quizData].
    rewrite Hq'. reflexivity. }
  split; [intros st body; split; [reflexivity|simpl; discriminate]|].
  split; [intros st; split; [reflexivity|simpl; discriminate]|].
  split; [simpl; discriminate|].
  apply (construct_empty tool p status d Hq).
Qed.

Lemma C8_empty_questions_untyped_failure_witness :
  questions (Demo.quiz 0 2 4 10) = Some []
  /\ quizData (this Demo.empty_loaded) = Some (Demo.quiz 0 2 4 10)
  /\ log Demo.empty_loaded
     = [ShowError "Failed to load quiz data. Please refresh the page."].
Proof.
  split; [reflexivity|].
  destruct (C8_empty_questions_untyped_failure "fatigue" Demo.full_page 200
              (Demo.quiz 0 2 4 10) eq_refl)
    as (_ & _ & _ & _ & _ & _ & Hw).
  unfold Demo.empty_loaded. rewrite Hw. split; reflexivity.
Defined.

(** C8, against the wording of the specification.  The failure for an
    empty [questions] array is the very error thrown for a document
    without [questions] and for a [null] body, so it is not a failure of
    its own kind; and the engine object exists all the same and holds the
    rejected document: a selection followed by its auto-advance callback
    completes that quiz. *)
Lemma C8_empty_document_session_is_operable :
  questions (Demo.quiz 0 2 4 10) = Some []
  /\ questions Demo.quiz_without_questions = None
  /\ fst (loadQuizData
            (Response true 200 (Some (Some (Demo.quiz 0 2 4 10)))) Demo.fresh)
     = fst (loadQuizData
              (Response true 200 (Some (Some Demo.quiz_without_questions)))
              Demo.fresh)
  /\ fst (loadQuizData
            (Response true 200 (Some (Some (Demo.quiz 0 2 4 10)))) Demo.fresh)
     = fst (loadQuizData (Response true 200 (Some None)) Demo.fresh)
  /\ quizData (this Demo.empty_loaded) = Some (Demo.quiz 0 2 4 10)
  /\ answers (this (run Demo.empty_loaded
                      [ClickAnswer (Demo.answer_button "1" "3")])) !! Some 0
     = Some {| value := Some "yes"; weight := 3; text := Some "Yes" |}
  /\ isQuizCompleted
       (this (run Demo.empty_loaded
                [ClickAnswer (Demo.answer_button "1" "3"); TimerFires]))
     = true.
Proof.
  repeat split; vm_compute; reflexivity.
Qed.

(** ** Weights of scale answers *)

Lemma or_zero_or_else (a b : option Z) :
  Js.or_zero (Js.or_else a b)
  = match a with
    | Some n => if n =? 0 then default 0 b else n
    | None => default 0 b
    end.
Proof.
  unfold Js.or_zero, Js.or_else, Js.truthy.
  destruct a as [n|]; [destruct (Z.eqb_spec n 0) as [->|Hn]|]; simpl.
  - destruct b as [m|]; [destruct (Z.eqb_spec m 0) as [->|Hm]|]; simpl;
      [reflexivity| |reflexivity].
    destruct (Z.eqb_spec m 0); [lia|reflexivity].
  - destruct (Z.eqb_spec n 0); [lia|]. simpl.
    destruct (Z.eqb_spec n 0); [lia|reflexivity].
  - destruct b as [m|]; [destruct (Z.eqb_spec m 0) as [->|Hm]|]; simpl;
      [reflexivity| |reflexivity].
    destruct (Z.eqb_spec m 0); [lia|reflexivity].
Qed.

(** C9.  [selectScaleAnswer] records, at the button's question index, an
    answer whose weight is [parseInt] of the button's weight when that is a
    number other than 0.  When the weight is missing, not a number or 0, the
    recorded weight is [parseInt] of the button's value when that is a
    number, and 0 when it is not; so it is 0 only if the value too is
    missing, not a number or 0, and a button weighted 0 whose value parses
    to a number other than 0 is recorded with that number as weight. *)
Theorem C9_scale_weight_falls_back_to_value (w : World) (b : Button)
    (questionDiv : QuestionDiv) :
  closest_question b = Some questionDiv ->
  let pw := Js.parseInt (dataset_weight b) in
  let pv := Js.parseInt (dataset_value b) in
  exists a,
    answers (this (exec (selectScaleAnswer (Some b)) w))
      !! questionIndex_of questionDiv = Some a
    /\ value a = dataset_value b
    /\ (forall n, pw = Some n -> n <> 0 -> weight a = n)
    /\ (pw = None \/ pw = Some 0 ->
        (forall m, pv = Some m -> weight a = m)
        /\ (pv = None -> weight a = 0)
        /\ (weight a = 0 <-> pv = None \/ pv = Some 0))
    /\ (dataset_weight b = None -> weight a = default 0 pv)
    /\ (pw = Some 0 -> forall m, pv = Some m -> m <> 0 -> weight a = m).
Proof.
  intros Hb pw pv. exists (scale_answer b).
  rewrite (selectScaleAnswer_this w b questionDiv Hb).
  cbn [answers store_answer set_answers].
  split; [apply lookup_insert_eq|]. split; [reflexivity|].
  cbn [weight scale_answer]. fold pw pv. rewrite or_zero_or_else.
  split; [|split; [|split]].
  - intros n -> Hn. destruct (Z.eqb_spec n 0); [lia|reflexivity].
  - intros [-> | ->]; simpl.
    + split; [intros m ->; reflexivity|].
      split; [intros ->; reflexivity|].
      destruct pv as [m|]; simpl; split; intros H; auto.
      * right. congruence.
      * destruct H as [H|H]; congruence.
    + split; [intros m ->; reflexivity|].
      split; [intros ->; reflexivity|].
      destruct pv as [m|]; simpl; split; intros H; auto.
      * right. congruence.
      * destruct H as [H|H]; congruence.
  - intros Hw. subst pw. rewrite Hw. reflexivity.
  - intros -> m -> Hm. reflexivity.
Qed.

Lemma C9_scale_weight_falls_back_to_value_witness :
  Js.parseInt (Some "0") = Some 0
  /\ Js.parseInt (Some "3") = Some 3
  /\ exists a,
       answers (this (exec (selectScaleAnswer
                              (Some (Demo.scale_button "1" "3" (Some "0"))))
                        Demo.at_first)) !! Some 0 = Some a
       /\ weight a = 3.
Proof.
  split; [reflexivity|]. split; [reflexivity|].
  destruct (C9_scale_weight_falls_back_to_value Demo.at_first
              (Demo.scale_button "1" "3" (Some "0"))
              {| dataset_question := Some "1" |} eq_refl)
    as (a & Ha & _ & _ & _ & _ & Hzero).
  exists a. split; [exact Ha|].
  apply (Hzero eq_refl 3 eq_refl). discriminate.
Defined.

(** * Further properties of the engine *)

(** ** States reached from a successful load *)

Lemma loadQuizData_ok (w : World) (status : Z) (d : QuizData)
    (q : Question) (qs : list Question) :
  questions d = Some (q :: qs) ->
  loadQuizData (Response true status (Some (Some d))) w
  = (Ok tt, with_this (set_quizData (Some d) (this w)) w).
Proof.
  intros Hq. unfold loadQuizData. cbn [negb].
  unfold bind, set_this, get_this. cbn [this quizData set_quizData].
  rewrite Hq. reflexivity.
Qed.

Lemma construct_ok (tool : string) (p : Page) (status : Z) (d : QuizData)
    (q : Question) (qs : list Question) :
  questions d = Some (q :: qs) ->
  construct tool p (Response true status (Some (Some d)))
  = {| this := set_quizData (Some d) (new_SymptomChecker tool);
       page := p;
       timers := [];
       log := [SetupEventListeners; ShowQuestion 0] |}.
Proof.
  intros Hq. unfold construct, exec, init, try_catch.
  rewrite (bind_run _ _ _ _ _ (loadQuizData_ok _ status d q qs Hq)).
  unfold setupEventListeners. unfold bind at 1. unfold emit at 1.
  set (w1 := {| this := _; page := _; timers := _; log := _ |}).
  assert (Hd : quizData (this w1) = Some d) by reflexivity.
  rewrite (showQuestion_run w1 d (q :: qs) 0 Hd Hq).
  reflexivity.
Qed.

Lemma Reached_this (tool : string) (qd : QuizData) (qs : list Question)
    (w w' : World) :
  this w' = this w -> Reached tool qd qs w -> Reached tool qd qs w'.
Proof.
  intros Heq [H1 H2 H3 H4 H5]. split; rewrite Heq; assumption.
Qed.

Lemma Reached_store (tool : string) (qd : QuizData) (qs : list Question)
    (w w' : World) (j : option Z) (a : Answer) :
  this w' = store_answer j a (this w) ->
  Reached tool qd qs w -> Reached tool qd qs w'.
Proof.
  intros Heq [H1 H2 H3 H4 H5].
  assert (Hkeep : forall k, is_Some (answers (this w) !! k) ->
                            is_Some (<[j := a]> (answers (this w)) !! k)).
  { intros k Hk. rewrite lookup_insert_is_Some. destruct (decide (j = k)); auto. }
  split; rewrite Heq; cbn [store_answer set_answers toolName quizData
    currentQuestion answers isQuizCompleted]; auto.
Qed.

Lemma Reached_next (tool : string) (qd : QuizData) (qs : list Question)
    (w : World) :
  questions qd = Some qs ->
  Reached tool qd qs w -> Reached tool qd qs (exec nextQuestion w).
Proof.
  intros Hqs Hr. pose proof Hr as [H1 H2 H3 H4 H5].
  destruct (answered (this w)) eqn:Ha.
  - destruct (Z.ltb_spec (currentQuestion (this w)) (Z.of_nat (length qs) - 1))
      as [Hlt|Hge].
    + unfold exec. rewrite (nextQuestion_advance w qd qs H2 Hqs Ha Hlt).
      split; cbn [snd with_log with_this this set_currentQuestion toolName
        quizData currentQuestion answers isQuizCompleted]; auto; [lia|].
      intros j Hj. destruct (decide (j = currentQuestion (this w))) as [->|Hne].
      * apply bool_decide_eq_true in Ha. exact Ha.
      * apply H4. lia.
    + unfold exec. rewrite (nextQuestion_complete w qd qs H2 Hqs Ha Hge).
      destruct (completeQuiz_exec w qd H2) as [l Hl]. unfold exec in Hl.
      rewrite Hl.
      split; cbn [with_log with_this this set_isQuizCompleted set_totalScore
        toolName quizData currentQuestion answers isQuizCompleted]; auto.
      intros _ j Hj. destruct (decide (j = currentQuestion (this w))) as [->|Hne].
      * apply bool_decide_eq_true in Ha. exact Ha.
      * apply H4. lia.
  - unfold exec. rewrite (nextQuestion_blocked w Ha). exact Hr.
Qed.

Lemma Reached_previous (tool : string) (qd : QuizData) (qs : list Question)
    (w : World) :
  Reached tool qd qs w -> Reached tool qd qs (exec previousQuestion w).
Proof.
  intros Hr. pose proof Hr as [H1 H2 H3 H4 H5].
  destruct (Z.ltb_spec 0 (currentQuestion (this w))) as [Hpos|Hzero].
  - unfold exec. rewrite (previousQuestion_back w Hpos).
    set (w1 := with_this _ w).
    destruct (showQuestion_exec w1 (currentQuestion (this w) - 1)) as [l Hl].
    unfold exec in Hl. rewrite Hl.
    split; cbn [w1 with_log with_this this set_currentQuestion toolName
      quizData currentQuestion answers isQuizCompleted]; auto; [lia|].
    intros j Hj. apply H4. lia.
  - unfold exec. rewrite (previousQuestion_first w Hzero). exact Hr.
Qed.

Lemma Reached_restart (tool : string) (qd : QuizData) (qs : list Question)
    (w : World) :
  Reached tool qd qs w -> Reached tool qd qs (exec restartQuiz w).
Proof.
  intros [H1 H2 H3 H4 H5].
  destruct (restartQuiz_exec w) as [l Hl]. rewrite Hl.
  split; cbn [with_log with_this this toolName quizData currentQuestion
    answers isQuizCompleted]; auto; try lia; try discriminate.
Qed.

Lemma selectAnswer_outside (w : World) (b : Button) :
  closest_question b = None ->
  selectAnswer (Some b) w = (Throw TypeError, w)
  /\ selectScaleAnswer (Some b) w = (Throw TypeError, w).
Proof.
  intros Hb. unfold selectAnswer, selectScaleAnswer. rewrite Hb.
  split; reflexivity.
Qed.

Lemma Reached_step (tool : string) (qd : QuizData) (qs : list Question)
    (w : World) (e : Event) :
  questions qd = Some qs ->
  Reached tool qd qs w -> Reached tool qd qs (step w e).
Proof.
  intros Hqs Hr. pose proof (reached_data _ _ _ _ Hr) as Hqd.
  destruct e as [b|b| | | |]; unfold step; [cbn [handle]..|].
  - destruct (closest_question b) as [questionDiv|] eqn:Hb.
    + eapply Reached_store; [|exact Hr]. unfold exec.
      rewrite (selectAnswer_run w b questionDiv qd qs Hb Hqd Hqs).
      reflexivity.
    + unfold exec. rewrite (proj1 (selectAnswer_outside w b Hb)). exact Hr.
  - destruct (closest_question b) as [questionDiv|] eqn:Hb.
    + eapply Reached_store; [|exact Hr].
      apply (selectScaleAnswer_this w b questionDiv Hb).
    + unfold exec. rewrite (proj2 (selectAnswer_outside w b Hb)). exact Hr.
  - apply Reached_next; assumption.
  - apply Reached_previous; assumption.
  - apply Reached_restart; assumption.
  - destruct (timers w) as [|[] ts] eqn:Hts.
    + unfold exec, handle, bind, pop_timer. rewrite Hts. exact Hr.
    + unfold exec. rewrite (timer_fires_run w ts Hts), autoAdvanceCallback_run.
      assert (Hr' : Reached tool qd qs (with_timers ts w))
        by (eapply Reached_this; [|exact Hr]; reflexivity).
      destruct (answered (this (with_timers ts w))); [|exact Hr'].
      apply (Reached_next tool qd qs _ Hqs Hr').
Qed.

Lemma Reached_run (tool : string) (qd : QuizData) (qs : list Question)
    (w : World) (es : list Event) :
  questions qd = Some qs ->
  Reached tool qd qs w -> Reached tool qd qs (run w es).
Proof.
  intros Hqs. revert w. induction es as [|e es IH]; intros w Hr; [exact Hr|].
  unfold run in *. simpl. apply IH. apply Reached_step; assumption.
Qed.

Lemma Reached_construct (tool : string) (p : Page) (status : Z)
    (qd : QuizData) (q : Question) (qs : list Question) :
  questions qd = Some (q :: qs) ->
  Reached tool qd (q :: qs)
    (construct tool p (Response true status (Some (Some qd)))).
Proof.
  intros Hq. rewrite (construct_ok tool p status qd q qs Hq).
  split; cbn [this set_quizData new_SymptomChecker toolName quizData
    currentQuestion answers isQuizCompleted length]; auto; try lia;
    try discriminate.
Qed.

Lemma Object_keys_length_size (m : gmap (option Z) Answer) :
  Object_keys_length m = size m.
Proof.
  unfold Object_keys_length. rewrite length_fmap. apply length_map_to_list.
Qed.

Lemma size_at_least (m : gmap (option Z) Answer) (n : nat) :
  (forall j, 0 <= j < Z.of_nat n -> is_Some (m !! Some j)) ->
  (n <= size m)%nat.
Proof.
  intros Hall.
  set (X := list_to_set (Some <$> seqZ 0 (Z.of_nat n)) : gset (option Z)).
  assert (Hsub : X ⊆ dom m).
  { intros k Hk. subst X. apply elem_of_list_to_set in Hk.
    apply list_elem_of_fmap in Hk as (j & -> & Hj).
    apply elem_of_seqZ in Hj. apply elem_of_dom. apply Hall. lia. }
  apply subseteq_size in Hsub. rewrite size_dom in Hsub.
  assert (Hsize : size X = n).
  { subst X. rewrite size_list_to_set.
    - rewrite length_fmap, length_seqZ. apply Nat2Z.id.
    - apply NoDup_fmap_2; [apply _|apply NoDup_seqZ]. }
  rewrite Hsize in Hsub. exact Hsub.
Qed.

(** X1.  After a successful load, whatever clicks and timers follow, the
    engine keeps the loaded document and its current index stays a valid
    question index; so [getCurrentProgress] always reports a question
    number between 1 and the number of questions. *)
Theorem X1_current_question_stays_in_range (tool : string) (p : Page)
    (status : Z) (qd : QuizData) (q : Question) (qs : list Question)
    (es : list Event) :
  questions qd = Some (q :: qs) ->
  let w := run (construct tool p (Response true status (Some (Some qd)))) es in
  let v := getCurrentProgress (this w) in
  quizData (this w) = Some qd
  /\ toolName (this w) = tool
  /\ 0 <= currentQuestion (this w) < Z.of_nat (length (q :: qs))
  /\ progress_totalQuestions v = Z.of_nat (length (q :: qs))
  /\ 1 <= progress_currentQuestion v <= progress_totalQuestions v.
Proof.
  intros Hq w v.
  assert (Hr : Reached tool qd (q :: qs) w).
  { apply Reached_run; [exact Hq|]. apply Reached_construct. exact Hq. }
  destruct Hr as [H1 H2 H3 H4 H5].
  split; [exact H2|]. split; [exact H1|]. split; [exact H3|].
  subst v. unfold getCurrentProgress. cbn [progress_totalQuestions
    progress_currentQuestion]. rewrite H2, Hq. split; [reflexivity|lia].
Qed.

Lemma X1_current_question_stays_in_range_witness :
  let w := run (Demo.loaded 2 2 4 10)
             [ClickAnswer (Demo.answer_button "1" "2"); TimerFires; ClickNext;
              TimerFires; ClickPrev; ClickPrev; ClickPrev] in
  0 <= currentQuestion (this w) < 2.
Proof.
  exact (proj1 (proj2 (proj2
    (X1_current_question_stays_in_range "fatigue" Demo.full_page 200
       (Demo.quiz 2 2 4 10) Demo.question [Demo.question]
       [ClickAnswer (Demo.answer_button "1" "2"); TimerFires; ClickNext;
        TimerFires; ClickPrev; ClickPrev; ClickPrev]
       eq_refl)))).
Defined.

(** X2.  After a successful load, whatever clicks and timers follow,
    every question before the current one has a recorded answer, and a quiz
    whose completed flag is set has an answer for every question: the
    number of answered questions that [getCurrentProgress] reports is then
    at least the number of questions. *)
Theorem X2_completed_quiz_is_fully_answered (tool : string) (p : Page)
    (status : Z) (qd : QuizData) (q : Question) (qs : list Question)
    (es : list Event) :
  questions qd = Some (q :: qs) ->
  let w := run (construct tool p (Response true status (Some (Some qd)))) es in
  let v := getCurrentProgress (this w) in
  (forall j, 0 <= j < currentQuestion (this w) ->
             is_Some (answers (this w) !! Some j))
  /\ (isQuizCompleted (this w) = true ->
      (forall j, 0 <= j < Z.of_nat (length (q :: qs)) ->
                 is_Some (answers (this w) !! Some j))
      /\ progress_totalQuestions v
         <= Z.of_nat (progress_answeredQuestions v)).
Proof.
  intros Hq w v.
  assert (Hr : Reached tool qd (q :: qs) w).
  { apply Reached_run; [exact Hq|]. apply Reached_construct. exact Hq. }
  destruct Hr as [H1 H2 H3 H4 H5].
  split; [exact H4|]. intros Hc. split; [exact (H5 Hc)|].
  subst v. unfold getCurrentProgress. cbn [progress_totalQuestions
    progress_answeredQuestions]. rewrite H2, Hq, Object_keys_length_size.
  apply inj_le. apply size_at_least. exact (H5 Hc).
Qed.

Lemma X2_completed_quiz_is_fully_answered_witness :
  isQuizCompleted (this Demo.completed2) = true
  /\ is_Some (answers (this Demo.completed2) !! Some 0)
  /\ is_Some (answers (this Demo.completed2) !! Some 1).
Proof.
  assert (Hc : isQuizCompleted (this Demo.completed2) = true)
    by (vm_compute; reflexivity).
  split; [exact Hc|].
  destruct (proj2 (X2_completed_quiz_is_fully_answered "fatigue"
              Demo.full_page 200 (Demo.quiz 2 2 4 10) Demo.question
              [Demo.question]
              [ClickAnswer (Demo.answer_button "1" "2"); ClickNext;
               ClickAnswer (Demo.answer_button "2" "3"); ClickNext]
              eq_refl) Hc) as [Hall _].
  split; apply Hall; simpl; lia.
Defined.

(** ** Completion in an incomplete page *)

Lemma completeQuiz_cases (w : World) (qd : QuizData) :
  quizData (this w) = Some qd ->
  completeQuiz w
  = (if has_quiz_container (page w) && has_resultsSection (page w)
     then Ok tt else Throw TypeError,
     {| this := set_isQuizCompleted true
                  (set_totalScore (sum_of_weights (answers (this w))) (this w));
        page := page w;
        timers := timers w;
        log := log w ++ completion_effects (this w) qd (page w) |}).
Proof.
  intros Hqd. unfold completeQuiz.
  unfold bind at 1. unfold set_this at 1.
  unfold bind at 1. rewrite calculateScore_run.
  unfold bind at 1.
  erewrite getResultLevel_run by (simpl; exact Hqd).
  unfold displayResults, announceToScreenReader, completion_effects. run_m.
  destruct (has_quiz_container (page w)); simpl;
    [|rewrite app_nil_r; reflexivity].
  destruct (has_resultsSection (page w)), (has_HealthCheckPro (page w));
    simpl; rewrite <- ?app_assoc, ?app_nil_r; reflexivity.
Qed.

(** X3.  [completeQuiz] dereferences the quiz container and the results
    section without a check.  On a loaded document it sets the completed
    flag and the score whatever the page holds, and returns normally exactly
    when the page has both elements.  Without the quiz container it throws
    before anything is shown, tracked or announced; with the container but
    without the results section the completion event is still tracked, and
    the call throws before the announcement. *)
Theorem X3_completeQuiz_in_incomplete_page (w : World) (qd : QuizData) :
  quizData (this w) = Some qd ->
  let score := sum_of_weights (answers (this w)) in
  let l := level_for (scoring qd) score in
  isQuizCompleted (this (exec completeQuiz w)) = true
  /\ totalScore (this (exec completeQuiz w)) = score
  /\ (returns completeQuiz w = true
      <-> has_quiz_container (page w) = true
          /\ has_resultsSection (page w) = true)
  /\ (has_quiz_container (page w) = false ->
      fst (completeQuiz w) = Throw TypeError
      /\ log (exec completeQuiz w) = log w)
  /\ (has_quiz_container (page w) = true ->
      has_resultsSection (page w) = false ->
      fst (completeQuiz w) = Throw TypeError
      /\ log (exec completeQuiz w)
         = log w ++ (if has_HealthCheckPro (page w)
                     then [TrackQuizCompleted (toolName (this w)) score l
                             (Object_keys_length (answers (this w)))]
                     else [])).
Proof.
  intros Hqd score l. unfold returns, exec.
  rewrite (completeQuiz_cases w qd Hqd). cbn [fst snd this log].
  unfold completion_effects. fold score l.
  split; [reflexivity|]. split; [reflexivity|].
  destruct (has_quiz_container (page w)), (has_resultsSection (page w)),
    (has_HealthCheckPro (page w)); simpl;
    repeat split; try discriminate; try tauto;
    try (intros [? ?]; discriminate); rewrite ?app_nil_r; reflexivity.
Qed.

Lemma X3_completeQuiz_in_incomplete_page_witness :
  let w := {| this := this Demo.answered1;
              page := {| has_quiz_container := true;
                         has_resultsSection := false;
                         has_nextBtn := true; has_HealthCheckPro := true |};
              timers := []; log := [] |} in
  fst (completeQuiz w) = Throw TypeError
  /\ log (exec completeQuiz w) = [TrackQuizCompleted "fatigue" 3 moderate 1].
Proof.
  intros w.
  destruct (X3_completeQuiz_in_incomplete_page w (Demo.quiz 1 2 4 10) eq_refl)
    as (_ & _ & _ & _ & H).
  destruct (H eq_refl eq_refl) as [Hthrow Hlog].
  split; [exact Hthrow|]. rewrite Hlog. vm_compute. reflexivity.
Defined.

(** ** Restart *)

Lemma SymptomChecker_eta (sc : SymptomChecker) :
  {| toolName := toolName sc; quizData := quizData sc;
     currentQuestion := currentQuestion sc; answers := answers sc;
     totalScore := totalScore sc; isQuizCompleted := isQuizCompleted sc |}
  = sc.
Proof. by destruct sc. Qed.

Lemma exportResults_not_completed (now : string) (w : World) :
  isQuizCompleted (this w) = false -> exportResults now w = (Ok None, w).
Proof.
  intros Hc. unfold exportResults.
  rewrite (bind_run get_this _ w w (this w) eq_refl). rewrite Hc.
  reflexivity.
Qed.

(** X4.  [restartQuiz] resets the index, the answers, the score and the
    completed flag and keeps the tool name and the document, also when it
    throws for want of a quiz container.  After a successful load and any
    clicks and timers, a restart therefore puts the engine object back in
    exactly the state it had right after loading: no question is answered,
    Next does nothing and [exportResults] gives [null]. *)
Theorem X4_restart_returns_to_loaded_state (tool : string) (p : Page)
    (status : Z) (qd : QuizData) (q : Question) (qs : list Question)
    (es : list Event) (now : string) :
  questions qd = Some (q :: qs) ->
  let w0 := construct tool p (Response true status (Some (Some qd))) in
  let w := step (run w0 es) ClickRestart in
  this w = this w0
  /\ answers (this w) = ∅
  /\ nextQuestion w = (Ok tt, w)
  /\ exportResults now w = (Ok None, w)
  /\ getCurrentProgress (this w)
     = {| progress_currentQuestion := 1;
          progress_totalQuestions := Z.of_nat (length (q :: qs));
          progress_answeredQuestions := 0;
          progress_isCompleted := false |}.
Proof.
  intros Hq w0 w.
  assert (Hr : Reached tool qd (q :: qs) (run w0 es)).
  { apply Reached_run; [exact Hq|]. apply Reached_construct. exact Hq. }
  destruct Hr as [H1 H2 _ _ _].
  assert (Hthis : this w = this w0).
  { subst w. unfold step, handle.
    destruct (restartQuiz_exec (run w0 es)) as [l ->].
    cbn [this with_log with_this]. rewrite H1, H2.
    subst w0. rewrite (construct_ok tool p status qd q qs Hq). reflexivity. }
  assert (H0 : this w0 = set_quizData (Some qd) (new_SymptomChecker tool)).
  { subst w0. rewrite (construct_ok tool p status qd q qs Hq). reflexivity. }
  split; [exact Hthis|].
  split; [rewrite Hthis, H0; reflexivity|].
  split.
  { apply nextQuestion_blocked. rewrite Hthis, H0. reflexivity. }
  split.
  { apply exportResults_not_completed. rewrite Hthis, H0. reflexivity. }
  rewrite Hthis, H0. unfold getCurrentProgress. simpl. rewrite Hq.
  reflexivity.
Qed.

Lemma X4_restart_returns_to_loaded_state_witness :
  this (step Demo.completed2 ClickRestart) = this (Demo.loaded 2 2 4 10).
Proof.
  exact (proj1 (X4_restart_returns_to_loaded_state "fatigue" Demo.full_page
                  200 (Demo.quiz 2 2 4 10) Demo.question [Demo.question]
                  [ClickAnswer (Demo.answer_button "1" "2"); ClickNext;
                   ClickAnswer (Demo.answer_button "2" "3"); ClickNext]
                  "now" eq_refl)).
Defined.

(** ** Going back and forth *)

(** X5.  Navigation round trips.  After a successful load and any clicks
    and timers, if the engine is not at the first question then Previous
    followed by Next brings the engine object back to where it was (the
    question left behind is always answered).  And on a loaded document,
    from an answered question that is not the last, Next followed by
    Previous brings it back as well. *)
Theorem X5_previous_next_round_trip (tool : string) (p : Page)
    (status : Z) (qd : QuizData) (q : Question) (qs : list Question)
    (es : list Event) :
  questions qd = Some (q :: qs) ->
  let w := run (construct tool p (Response true status (Some (Some qd)))) es in
  (0 < currentQuestion (this w) ->
   this (run w [ClickPrev; ClickNext]) = this w)
  /\ (answered (this w) = true ->
      currentQuestion (this w) < Z.of_nat (length (q :: qs)) - 1 ->
      this (run w [ClickNext; ClickPrev]) = this w).
Proof.
  intros Hq w.
  assert (Hr : Reached tool qd (q :: qs) w).
  { apply Reached_run; [exact Hq|]. apply Reached_construct. exact Hq. }
  destruct Hr as [H1 H2 H3 H4 H5]. clearbody w.
  split.
  - intros Hpos. unfold run. cbn [foldl]. unfold step at 2. cbn [handle].
    unfold exec at 1. rewrite (previousQuestion_back w Hpos).
    erewrite showQuestion_run by (simpl; eassumption).
    destruct (Z.leb_spec (Z.of_nat (length (q :: qs)))
                (currentQuestion (this w) - 1)) as [Hle|_];
      [lia|].
    cbn [snd]. set (w1 := with_log _ _).
    assert (Ha : answered (this w1) = true).
    { apply bool_decide_eq_true. apply H4. subst w1. simpl. lia. }
    assert (Hlt : currentQuestion (this w1) < Z.of_nat (length (q :: qs)) - 1)
      by (subst w1; simpl in *; lia).
    unfold step, exec. cbn [handle].
    rewrite (nextQuestion_advance w1 qd (q :: qs) H2 Hq Ha Hlt).
    subst w1. cbn [snd with_log with_this this set_currentQuestion toolName
      quizData currentQuestion answers totalScore isQuizCompleted].
    rewrite Z.sub_add. unfold set_currentQuestion. simpl.
    apply SymptomChecker_eta.
  - intros Ha Hlt. unfold run. cbn [foldl]. unfold step at 2. cbn [handle].
    unfold exec at 1.
    rewrite (nextQuestion_advance w qd (q :: qs) H2 Hq Ha Hlt).
    cbn [snd]. set (w1 := with_log _ _).
    assert (Hpos : 0 < currentQuestion (this w1)) by (subst w1; simpl; lia).
    unfold step, exec. cbn [handle].
    rewrite (previousQuestion_back w1 Hpos).
    destruct (showQuestion_this
                (with_this (set_currentQuestion (currentQuestion (this w1) - 1)
                              (this w1)) w1)
                (currentQuestion (this w1) - 1)) as (Hthis & _).
    unfold exec in Hthis. rewrite Hthis.
    subst w1. cbn [with_log with_this this set_currentQuestion toolName
      quizData currentQuestion answers totalScore isQuizCompleted].
    rewrite Z.add_simpl_r. unfold set_currentQuestion. simpl.
    apply SymptomChecker_eta.
Qed.

Lemma X5_previous_next_round_trip_witness :
  0 < currentQuestion (this Demo.completed2)
  /\ this (run Demo.completed2 [ClickPrev; ClickNext]) = this Demo.completed2.
Proof.
  assert (Hpos : 0 < currentQuestion (this Demo.completed2))
    by (vm_compute; reflexivity).
  split; [exact Hpos|].
  exact (proj1 (X5_previous_next_round_trip "fatigue" Demo.full_page
                  200 (Demo.quiz 2 2 4 10) Demo.question [Demo.question]
                  [ClickAnswer (Demo.answer_button "1" "2"); ClickNext;
                   ClickAnswer (Demo.answer_button "2" "3"); ClickNext]
                  eq_refl) Hpos).
Defined.

(** ** The navigation buttons *)

(** X6.  What [updateNavigationButtons] writes agrees with what the engine
    does: on a loaded document, with a current index that is not negative,
    the Next button is disabled exactly when [nextQuestion] would return
    without changing anything, the Previous button is disabled exactly when
    [previousQuestion] would, and the Next button reads "Get Results"
    exactly at the last question, where an enabled Next completes the
    quiz. *)
Theorem X6_buttons_agree_with_navigation (w : World) (qd : QuizData)
    (qs : list Question) :
  quizData (this w) = Some qd ->
  questions qd = Some qs ->
  0 <= currentQuestion (this w) ->
  let b := navigationButtons (this w) (Z.of_nat (length qs)) in
  (nextBtn_disabled b = true <-> nextQuestion w = (Ok tt, w))
  /\ (prevBtn_disabled b = true <-> previousQuestion w = (Ok tt, w))
  /\ (nextBtn_textContent b = "Get Results"
      <-> currentQuestion (this w) = Z.of_nat (length qs) - 1)
  /\ (nextBtn_disabled b = false ->
      nextBtn_textContent b = "Get Results" ->
      nextQuestion w = completeQuiz w).
Proof.
  intros Hqd Hqs Hpos b. subst b. unfold navigationButtons.
  cbn [nextBtn_disabled prevBtn_disabled nextBtn_textContent].
  fold (answered (this w)).
  split; [|split; [|split]].
  - split.
    + intros Hd. apply nextQuestion_blocked.
      destruct (answered (this w)); [discriminate Hd|reflexivity].
    + intros Hnoop. destruct (answered (this w)) eqn:Ha; [|reflexivity].
      exfalso.
      destruct (Z.ltb_spec (currentQuestion (this w))
                  (Z.of_nat (length qs) - 1)) as [Hlt|Hge].
      * rewrite (nextQuestion_advance w qd qs Hqd Hqs Ha Hlt) in Hnoop.
        apply (f_equal (fun r => currentQuestion (this (snd r)))) in Hnoop.
        simpl in Hnoop. lia.
      * rewrite (nextQuestion_complete w qd qs Hqd Hqs Ha Hge) in Hnoop.
        rewrite (completeQuiz_cases w qd Hqd) in Hnoop.
        unfold completion_effects in Hnoop.
        destruct (has_quiz_container (page w)), (has_resultsSection (page w));
          simpl in Hnoop; try discriminate Hnoop.
        apply (f_equal (fun r => length (log (snd r)))) in Hnoop.
        simpl in Hnoop. rewrite !length_app in Hnoop. simpl in Hnoop.
        clear -Hnoop. lia.
  - split.
    + intros Hd. apply previousQuestion_first.
      apply Z.eqb_eq in Hd. lia.
    + intros Hnoop. apply Z.eqb_eq.
      destruct (Z.ltb_spec 0 (currentQuestion (this w))) as [Hgt|Hle];
        [|lia].
      exfalso.
      pose proof (previousQuestion_back w Hgt) as Hback.
      rewrite Hnoop in Hback.
      set (w1 := with_this _ w) in Hback.
      destruct (showQuestion_this w1 (currentQuestion (this w) - 1))
        as (Hthis & _).
      unfold exec in Hthis. rewrite <- Hback in Hthis.
      apply (f_equal currentQuestion) in Hthis.
      subst w1. simpl in Hthis. lia.
  - destruct (Z.eqb_spec (currentQuestion (this w)) (Z.of_nat (length qs) - 1));
      split; intros H; try reflexivity; try assumption;
      try discriminate H; contradiction.
  - intros Hd Hlabel.
    apply (nextQuestion_complete w qd qs Hqd Hqs).
    + destruct (answered (this w)); [reflexivity|discriminate Hd].
    + destruct (Z.eqb_spec (currentQuestion (this w))
                  (Z.of_nat (length qs) - 1)); [lia|discriminate Hlabel].
Qed.

Lemma X6_buttons_agree_with_navigation_witness :
  nextBtn_disabled (navigationButtons (this Demo.at_first) 2) = true
  /\ nextQuestion Demo.at_first = (Ok tt, Demo.at_first).
Proof.
  assert (Hd : nextBtn_disabled (navigationButtons (this Demo.at_first) 2)
               = true) by (vm_compute; reflexivity).
  split; [exact Hd|].
  assert (Hpos : 0 <= currentQuestion (this Demo.at_first))
    by (vm_compute; discriminate).
  exact (proj1 (proj1 (X6_buttons_agree_with_navigation Demo.at_first
                         (Demo.quiz 2 2 4 10) (replicate 2 Demo.question)
                         eq_refl eq_refl Hpos)) Hd).
Defined.

(** ** Selections that cannot be carried out *)

Lemma updateNavigationButtons_no_data (w : World) :
  quizData (this w) = None ->
  updateNavigationButtons w
  = (if has_nextBtn (page w) then Throw TypeError else Ok tt, w).
Proof.
  intros Hqd. unfold updateNavigationButtons, canProceed, questions_length.
  run_m. destruct (has_nextBtn (page w)); simpl; [|reflexivity].
  rewrite Hqd. reflexivity.
Qed.

(** X7.  Edge cases of [selectAnswer] and [selectScaleAnswer].  Without a
    button they return at once.  For a button outside any question element
    they throw a [TypeError] before anything is written.  On an engine
    whose document is not loaded, [selectAnswer] stores the answer and then
    throws, so that nothing is scheduled or announced; [selectScaleAnswer]
    stores the answer too, and throws exactly when the page has a Next
    button, announcing the selection otherwise. *)
Theorem X7_selections_that_fail (w : World) (b : Button) :
  selectAnswer None w = (Ok tt, w)
  /\ selectScaleAnswer None w = (Ok tt, w)
  /\ (closest_question b = None ->
      selectAnswer (Some b) w = (Throw TypeError, w)
      /\ selectScaleAnswer (Some b) w = (Throw TypeError, w))
  /\ (forall questionDiv,
      closest_question b = Some questionDiv ->
      quizData (this w) = None ->
      selectAnswer (Some b) w
      = (Throw TypeError,
         with_this (store_answer (questionIndex_of questionDiv)
                      (choice_answer b) (this w)) w)
      /\ selectScaleAnswer (Some b) w
         = if has_nextBtn (page w)
           then (Throw TypeError,
                 with_this (store_answer (questionIndex_of questionDiv)
                              (scale_answer b) (this w)) w)
           else (Ok tt,
                 with_log (log w ++ [Announce (SelectedScale (dataset_value b))])
                   (with_this (store_answer (questionIndex_of questionDiv)
                                 (scale_answer b) (this w)) w))).
Proof.
  split; [reflexivity|]. split; [reflexivity|].
  split; [apply selectAnswer_outside|].
  intros questionDiv Hb Hqd. unfold selectAnswer, selectScaleAnswer.
  rewrite Hb. split.
  - unfold bind at 1. unfold set_this at 1.
    set (w1 := {| this := _; page := _; timers := _; log := _ |}).
    assert (Hqd1 : quizData (this w1) = None) by exact Hqd.
    unfold bind at 1. rewrite (updateNavigationButtons_no_data w1 Hqd1).
    destruct (has_nextBtn (page w1)); [reflexivity|].
    unfold bind, get_this. rewrite Hqd1. reflexivity.
  - unfold bind at 1. unfold set_this at 1.
    set (w1 := {| this := _; page := _; timers := _; log := _ |}).
    assert (Hqd1 : quizData (this w1) = None) by exact Hqd.
    unfold bind at 1. rewrite (updateNavigationButtons_no_data w1 Hqd1).
    change (page w1) with (page w).
    destruct (has_nextBtn (page w)); reflexivity.
Qed.

Lemma X7_selections_that_fail_witness :
  let w := {| this := new_SymptomChecker "fatigue"; page := Demo.full_page;
              timers := []; log := [] |} in
  fst (selectAnswer (Some (Demo.answer_button "1" "3")) w) = Throw TypeError
  /\ is_Some (answers (this (exec (selectAnswer
                                     (Some (Demo.answer_button "1" "3"))) w))
                !! Some 0)
  /\ timers (exec (selectAnswer (Some (Demo.answer_button "1" "3"))) w) = [].
Proof.
  intros w.
  destruct (X7_selections_that_fail w (Demo.answer_button "1" "3"))
    as (_ & _ & _ & H).
  destruct (H {| dataset_question := Some "1" |} eq_refl eq_refl) as [Hs _].
  unfold exec. rewrite Hs. cbn [fst snd].
  split; [reflexivity|]. split; [|reflexivity].
  vm_compute. eexists. reflexivity.
Defined.

(** ** Initialisation *)

Lemma construct_cases (tool : string) (p : Page) (f : FetchOutcome) :
  construct tool p f
  = {| this := set_quizData (parsed_body f) (new_SymptomChecker tool);
       page := p;
       timers := [];
       log := if usable f then [SetupEventListeners; ShowQuestion 0]
              else [ShowError
                      "Failed to load quiz data. Please refresh the page."] |}.
Proof.
  destruct f as [|ok status body]; [reflexivity|].
  destruct ok; [|reflexivity].
  destruct body as [d|]; [|reflexivity].
  destruct d as [d|]; [|reflexivity].
  cbn [usable parsed_body].
  destruct (questions d) as [[|q qs]|] eqn:Hq.
  - apply (construct_empty tool p status d Hq).
  - apply (construct_ok tool p status d q qs Hq).
  - unfold construct, exec, init, try_catch, loadQuizData. cbn [negb].
    unfold bind, set_this, get_this. cbn [this quizData set_quizData].
    rewrite Hq. reflexivity.
Qed.

(** X8.  [init] catches every failure itself: it always returns.  The
    event listeners are installed and the first question is shown exactly
    when the fetch gave a successful response whose body is a document with
    at least one question; in every other case (request failed, status not
    ok, body not parseable, [null], no [questions], empty [questions]) the
    only effect is the same error message.  The engine is left at question
    0 with no answer and no timer, and it holds the parsed body whenever a
    successful response parsed, also when that body was rejected. *)
Theorem X8_init_starts_quiz_iff_document_usable (tool : string) (p : Page)
    (f : FetchOutcome) :
  let w0 := {| this := new_SymptomChecker tool; page := p;
               timers := []; log := [] |} in
  let w := construct tool p f in
  returns (init f) w0 = true
  /\ (SetupEventListeners ∈ log w <-> usable f = true)
  /\ (usable f = true -> log w = [SetupEventListeners; ShowQuestion 0])
  /\ (usable f = false ->
      log w = [ShowError "Failed to load quiz data. Please refresh the page."])
  /\ quizData (this w) = parsed_body f
  /\ currentQuestion (this w) = 0
  /\ answers (this w) = ∅
  /\ isQuizCompleted (this w) = false
  /\ timers w = [].
Proof.
  intros w0 w.
  split.
  { unfold returns, init, try_catch.
    destruct ((loadQuizData f >> setupEventListeners >> showQuestion 0) w0)
      as [[[]|e] w1]; reflexivity. }
  subst w. rewrite (construct_cases tool p f). cbn [this log timers].
  split.
  { destruct (usable f); split; intros H; try reflexivity; try discriminate H.
    - apply list_elem_of_here.
    - apply list_elem_of_singleton in H. discriminate H. }
  split; [intros ->; reflexivity|].
  split; [intros ->; reflexivity|].
  repeat split.
Qed.

Lemma X8_init_starts_quiz_iff_document_usable_witness :
  usable (Response true 200 (Some (Some (Demo.quiz 2 2 4 10)))) = true
  /\ log (Demo.loaded 2 2 4 10) = [SetupEventListeners; ShowQuestion 0]
  /\ usable (Response false 404 None) = false
  /\ log (construct "fatigue" Demo.full_page (Response false 404 None))
     = [ShowError "Failed to load quiz data. Please refresh the page."].
Proof.
  split; [reflexivity|].
  split; [exact (proj1 (proj2 (proj2
            (X8_init_starts_quiz_iff_document_usable "fatigue" Demo.full_page
               (Response true 200 (Some (Some (Demo.quiz 2 2 4 10)))))))
            eq_refl)|].
  split; [reflexivity|].
  exact (proj1 (proj2 (proj2 (proj2
    (X8_init_starts_quiz_iff_document_usable "fatigue" Demo.full_page
       (Response false 404 None))))) eq_refl).
Defined.

(** ** Levels and scores *)

(** X9.  Whatever the limits of the document, a higher score never gets a
    lower risk level from the comparison chain of [getResultLevel]; and
    when [moderate.max] is not above [low.max], no score at all is
    classified [moderate]. *)
Theorem X9_level_is_monotone (s : Scoring) (a b : Z) :
  a <= b ->
  level_rank (level_for s a) <= level_rank (level_for s b)
  /\ (bucket_max (scoring_moderate s) <= bucket_max (scoring_low s) ->
      level_for s a <> moderate).
Proof.
  intros Hab. unfold level_for.
  destruct (Z.leb_spec a (bucket_max (scoring_low s)));
    destruct (Z.leb_spec b (bucket_max (scoring_low s)));
    destruct (Z.leb_spec a (bucket_max (scoring_moderate s)));
    destruct (Z.leb_spec b (bucket_max (scoring_moderate s)));
    simpl; split; try lia; try discriminate; intros; lia.
Qed.

Lemma X9_level_is_monotone_witness :
  level_rank (level_for (Demo.scoring_of 10 5 20) 3)
  <= level_rank (level_for (Demo.scoring_of 10 5 20) 7)
  /\ level_for (Demo.scoring_of 10 5 20) 3 <> moderate.
Proof.
  assert (H37 : 3 <= 7) by lia.
  destruct (X9_level_is_monotone (Demo.scoring_of 10 5 20) 3 7 H37)
    as [Hmono Hnever].
  split; [exact Hmono|]. apply Hnever. simpl. lia.
Defined.

Lemma sum_of_weights_insert (m : gmap (option Z) Answer) (k : option Z)
    (a : Answer) :
  sum_of_weights (<[k := a]> m) = sum_of_weights m - weight_at m k + weight a.
Proof.
  unfold sum_of_weights, Object_values, weight_at.
  destruct (m !! k) as [old|] eqn:Hk.
  - rewrite <- insert_delete_eq.
    rewrite (Zsum_Permutation _ (weight <$> ((k, a) :: map_to_list (delete k m)).*2)).
    2:{ apply fmap_Permutation, fmap_Permutation, map_to_list_insert.
        apply lookup_delete_eq. }
    rewrite (Zsum_Permutation (weight <$> (map_to_list m).*2)
               (weight <$> ((k, old) :: map_to_list (delete k m)).*2)).
    2:{ apply fmap_Permutation, fmap_Permutation. symmetry.
        apply map_to_list_delete. exact Hk. }
    rewrite !fmap_cons. unfold Zsum. simpl. lia.
  - rewrite (Zsum_Permutation _ (weight <$> ((k, a) :: map_to_list m).*2)).
    2:{ apply fmap_Permutation, fmap_Permutation, map_to_list_insert.
        exact Hk. }
    rewrite !fmap_cons. unfold Zsum. simpl. lia.
Qed.

(** X10.  While the weights stay within the safe integers (the absolute
    values of the recorded weights, before and after the selection, add up
    to at most [Number.MAX_SAFE_INTEGER], so that the sums the code forms
    are exact), selecting an answer changes the score by exactly the
    difference between the new weight and the weight recorded before at
    that question (0 if there was none).  The number of answered questions
    grows by one for a question not answered before and stays the same
    otherwise: the last selection for a question replaces the earlier
    one. *)
Theorem X10_selection_replaces_earlier_answer (w : World) (b : Button)
    (questionDiv : QuestionDiv) (qd : QuizData) (qs : list Question) :
  closest_question b = Some questionDiv ->
  quizData (this w) = Some qd ->
  questions qd = Some qs ->
  let j := questionIndex_of questionDiv in
  let w' := exec (selectAnswer (Some b)) w in
  let before := getCurrentProgress (this w) in
  let after := getCurrentProgress (this w') in
  safe_weights (answers (this w)) ->
  safe_weights (answers (this w')) ->
  fst (calculateScore w')
  = Ok (sum_of_weights (answers (this w))
        - weight_at (answers (this w)) j + weight (choice_answer b))
  /\ progress_answeredQuestions after
     = (if bool_decide (is_Some (answers (this w) !! j))
        then progress_answeredQuestions before
        else S (progress_answeredQuestions before))
  /\ this (exec (selectAnswer (Some b)) w') = this w'.
Proof.
  intros Hb Hqd Hqs j w' before after _ _.
  assert (Hw' : this w' = store_answer j (choice_answer b) (this w)).
  { subst w'. unfold exec.
    rewrite (selectAnswer_run w b questionDiv qd qs Hb Hqd Hqs). reflexivity. }
  split; [|split].
  - rewrite calculateScore_run. cbn [fst]. rewrite Hw'.
    cbn [store_answer set_answers answers]. f_equal.
    apply sum_of_weights_insert.
  - subst before after. unfold getCurrentProgress.
    cbn [progress_answeredQuestions]. rewrite Hw'.
    cbn [store_answer set_answers answers].
    rewrite !Object_keys_length_size, map_size_insert.
    destruct (answers (this w) !! j) eqn:Hj.
    + rewrite bool_decide_eq_true_2 by eauto. reflexivity.
    + rewrite bool_decide_eq_false_2 by (intros [? ?]; discriminate).
      reflexivity.
  - assert (Hqd' : quizData (this w') = Some qd) by (rewrite Hw'; exact Hqd).
    unfold exec at 1.
    rewrite (selectAnswer_run w' b questionDiv qd qs Hb Hqd' Hqs).
    cbn [snd this]. rewrite Hw'. fold j.
    unfold store_answer. cbn [set_answers answers toolName quizData
      currentQuestion totalScore isQuizCompleted].
    rewrite insert_insert_eq. reflexivity.
Qed.

Lemma X10_selection_replaces_earlier_answer_witness :
  sum_of_weights (answers (this Demo.completed1)) = 3
  /\ safe_weights (answers (this Demo.completed1))
  /\ fst (calculateScore
            (exec (selectAnswer (Some (Demo.answer_button "1" "5")))
               Demo.completed1))
     = Ok 5.
Proof.
  assert (Hsafe : safe_weights (answers (this Demo.completed1)))
    by (vm_compute; discriminate).
  assert (Hsafe' : safe_weights
                     (answers (this (exec (selectAnswer
                                             (Some (Demo.answer_button "1" "5")))
                                       Demo.completed1))))
    by (vm_compute; discriminate).
  split; [vm_compute; reflexivity|]. split; [exact Hsafe|].
  destruct (X10_selection_replaces_earlier_answer Demo.completed1
              (Demo.answer_button "1" "5") {| dataset_question := Some "1" |}
              (Demo.quiz 1 2 4 10) [Demo.question] eq_refl eq_refl eq_refl
              Hsafe Hsafe')
    as [Hscore _].
  rewrite Hscore. vm_compute. reflexivity.
Defined.

(** ** Auto-advance *)

Lemma nextQuestion_timers_frame (w : World) (qd : QuizData)
    (qs : list Question) (ts : list Task) :
  quizData (this w) = Some qd -> questions qd = Some qs ->
  nextQuestion (with_timers ts w)
  = (fst (nextQuestion w), with_timers ts (snd (nextQuestion w))).
Proof.
  intros Hqd Hqs.
  assert (Hqd' : quizData (this (with_timers ts w)) = Some qd) by exact Hqd.
  destruct (answered (this w)) eqn:Ha.
  - destruct (Z.ltb_spec (currentQuestion (this w)) (Z.of_nat (length qs) - 1))
      as [Hlt|Hge].
    + rewrite (nextQuestion_advance w qd qs Hqd Hqs Ha Hlt).
      rewrite (nextQuestion_advance (with_timers ts w) qd qs Hqd' Hqs Ha Hlt).
      reflexivity.
    + rewrite (nextQuestion_complete w qd qs Hqd Hqs Ha Hge).
      rewrite (nextQuestion_complete (with_timers ts w) qd qs Hqd' Hqs Ha Hge).
      rewrite (completeQuiz_cases w qd Hqd).
      rewrite (completeQuiz_cases (with_timers ts w) qd Hqd').
      reflexivity.
  - rewrite (nextQuestion_blocked w Ha).
    rewrite (nextQuestion_blocked (with_timers ts w) Ha). reflexivity.
Qed.

Lemma nextQuestion_timers (w : World) (qd : QuizData) (qs : list Question) :
  quizData (this w) = Some qd -> questions qd = Some qs ->
  timers (exec nextQuestion w) = timers w.
Proof.
  intros Hqd Hqs. unfold exec.
  destruct (answered (this w)) eqn:Ha.
  - destruct (Z.ltb_spec (currentQuestion (this w)) (Z.of_nat (length qs) - 1))
      as [Hlt|Hge].
    + rewrite (nextQuestion_advance w qd qs Hqd Hqs Ha Hlt). reflexivity.
    + rewrite (nextQuestion_complete w qd qs Hqd Hqs Ha Hge).
      rewrite (completeQuiz_cases w qd Hqd). reflexivity.
  - rewrite (nextQuestion_blocked w Ha). reflexivity.
Qed.

(** X11.  The auto-advance does what a press of Next does.  On a loaded
    document with auto-advance not switched off and no callback pending,
    selecting an answer of the current question and letting its callback
    come due leads to the same world as selecting it and pressing Next,
    except that the callback is no longer pending: the same question is
    reached or the same completion is carried out. *)
Theorem X11_auto_advance_is_next (w : World) (b : Button)
    (questionDiv : QuestionDiv) (qd : QuizData) (qs : list Question) :
  closest_question b = Some questionDiv ->
  questionIndex_of questionDiv = Some (currentQuestion (this w)) ->
  quizData (this w) = Some qd ->
  questions qd = Some qs ->
  autoAdvance qd <> Some false ->
  timers w = [] ->
  timers (run w [ClickAnswer b]) = [AutoAdvance]
  /\ run w [ClickAnswer b; TimerFires]
     = with_timers [] (run w [ClickAnswer b; ClickNext]).
Proof.
  intros Hb Hj Hqd Hqs Hauto Hts.
  assert (H1 : step w (ClickAnswer b)
               = {| this := store_answer (questionIndex_of questionDiv)
                              (choice_answer b) (this w);
                    page := page w;
                    timers := [AutoAdvance];
                    log := log w
                           ++ [Announce (Selected (text (choice_answer b)))] |}).
  { unfold step, exec. cbn [handle].
    rewrite (selectAnswer_run w b questionDiv qd qs Hb Hqd Hqs). cbn [snd].
    rewrite Hts, bool_decide_eq_false_2 by exact Hauto. reflexivity. }
  unfold run. cbn [foldl]. rewrite !H1.
  set (w1 := {| this := _; page := _; timers := _; log := _ |}).
  split; [reflexivity|].
  assert (Hqd1 : quizData (this w1) = Some qd) by exact Hqd.
  assert (Ha : answered (this w1) = true).
  { apply bool_decide_eq_true. subst w1.
    cbn [this store_answer set_answers answers currentQuestion].
    rewrite Hj, lookup_insert_eq. eauto. }
  unfold step, exec.
  rewrite (timer_fires_run w1 [] eq_refl), autoAdvanceCallback_run.
  change (answered (this (with_timers [] w1))) with (answered (this w1)).
  rewrite Ha. cbn [handle].
  rewrite (nextQuestion_timers_frame w1 qd qs [] Hqd1 Hqs). reflexivity.
Qed.

Lemma X11_auto_advance_is_next_witness :
  run Demo.at_first [ClickAnswer (Demo.answer_button "1" "2"); TimerFires]
  = with_timers []
      (run Demo.at_first [ClickAnswer (Demo.answer_button "1" "2"); ClickNext]).
Proof.
  assert (Hauto : autoAdvance (Demo.quiz 2 2 4 10) <> Some false)
    by discriminate.
  exact (proj2 (X11_auto_advance_is_next Demo.at_first
                  (Demo.answer_button "1" "2")
                  {| dataset_question := Some "1" |}
                  (Demo.quiz 2 2 4 10) (replicate 2 Demo.question)
                  eq_refl eq_refl eq_refl eq_refl Hauto eq_refl)).
Defined.

Lemma step_timers_unchanged (tool : string) (qd : QuizData)
    (qs : list Question) (w : World) (e : Event) :
  questions qd = Some qs ->
  Reached tool qd qs w ->
  (forall b, e = ClickAnswer b -> autoAdvance qd = Some false) ->
  e <> TimerFires ->
  timers (step w e) = timers w.
Proof.
  intros Hqs Hr Hoff Hfire. pose proof (reached_data _ _ _ _ Hr) as Hqd.
  destruct e as [b|b| | | |]; unfold step; cbn [handle].
  - destruct (closest_question b) as [questionDiv|] eqn:Hb.
    + unfold exec.
      rewrite (selectAnswer_run w b questionDiv qd qs Hb Hqd Hqs).
      cbn [snd timers].
      rewrite bool_decide_eq_true_2 by (apply (Hoff b); reflexivity).
      apply app_nil_r.
    + unfold exec. rewrite (proj1 (selectAnswer_outside w b Hb)). reflexivity.
  - destruct (closest_question b) as [questionDiv|] eqn:Hb.
    + unfold exec.
      rewrite (selectScaleAnswer_run w b questionDiv qd qs Hb Hqd Hqs).
      reflexivity.
    + unfold exec. rewrite (proj2 (selectAnswer_outside w b Hb)). reflexivity.
  - apply (nextQuestion_timers w qd qs Hqd Hqs).
  - destruct (Z.ltb_spec 0 (currentQuestion (this w))) as [Hpos|Hzero].
    + unfold exec. rewrite (previousQuestion_back w Hpos).
      set (w1 := with_this _ w).
      destruct (showQuestion_this w1 (currentQuestion (this w) - 1))
        as (_ & Htimers & _).
      exact Htimers.
    + unfold exec. rewrite (previousQuestion_first w Hzero). reflexivity.
  - destruct (restartQuiz_exec w) as [l ->]. reflexivity.
  - congruence.
Qed.

(** X12.  Only a selection on a choice button adds to the queue of pending
    callbacks and only a firing takes from it: after a successful load, a
    scale selection, Next, Previous and Restart leave the queue as it is.
    Hence with [autoAdvance] set to [false] in the document nothing is ever
    pending, whatever the user does. *)
Theorem X12_no_callback_when_auto_advance_is_off (tool : string) (p : Page)
    (status : Z) (qd : QuizData) (q : Question) (qs : list Question)
    (es : list Event) :
  questions qd = Some (q :: qs) ->
  let w := run (construct tool p (Response true status (Some (Some qd)))) es in
  (forall e,
      (forall b, e <> ClickAnswer b) -> e <> TimerFires ->
      timers (step w e) = timers w)
  /\ (autoAdvance qd = Some false -> timers w = []).
Proof.
  intros Hq w. split.
  - intros e Hsel Hfire.
    apply (step_timers_unchanged tool qd (q :: qs)); auto.
    + apply Reached_run; [exact Hq|]. apply Reached_construct. exact Hq.
    + intros b Hb. destruct (Hsel b Hb).
  - intros Hoff. subst w.
    set (w0 := construct tool p (Response true status (Some (Some qd)))).
    assert (Hr0 : Reached tool qd (q :: qs) w0)
      by (apply Reached_construct; exact Hq).
    assert (Ht0 : timers w0 = [])
      by (subst w0; rewrite (construct_ok tool p status qd q qs Hq);
          reflexivity).
    clearbody w0. revert w0 Hr0 Ht0.
    induction es as [|e es IH]; intros w0 Hr0 Ht0; [exact Ht0|].
    unfold run in *. cbn [foldl]. apply IH.
    + apply Reached_step; assumption.
    + assert (Hcases : e = TimerFires \/ e <> TimerFires)
        by (destruct e; (left; reflexivity) || (right; discriminate)).
      destruct Hcases as [->|Hne].
      * unfold step, exec, handle, bind, pop_timer. rewrite Ht0. exact Ht0.
      * rewrite (step_timers_unchanged tool qd (q :: qs) w0 e Hq Hr0);
          auto.
Qed.

Lemma X12_no_callback_when_auto_advance_is_off_witness :
  timers (run (construct "fatigue" Demo.full_page
                 (Response true 200 (Some (Some (Demo.quiz_no_auto 2 2 4 10)))))
            [ClickAnswer (Demo.answer_button "1" "2"); ClickNext;
             ClickAnswer (Demo.answer_button "2" "3")])
  = [].
Proof.
  exact (proj2 (X12_no_callback_when_auto_advance_is_off "fatigue"
                  Demo.full_page 200 (Demo.quiz_no_auto 2 2 4 10)
                  Demo.question [Demo.question]
                  [ClickAnswer (Demo.answer_button "1" "2"); ClickNext;
                   ClickAnswer (Demo.answer_button "2" "3")]
                  eq_refl) eq_refl).
Defined.

(** ** Reading back what [generateQuestion] writes *)

Lemma digit_value_pretty (d : N) :
  (d < 10)%N -> Js.digit_value (pretty_N_char d) = Some (Z.of_N d).
Proof.
  intros Hd.
  assert (Hcases : d = 0%N \/ d = 1%N \/ d = 2%N \/ d = 3%N \/ d = 4%N
                   \/ d = 5%N \/ d = 6%N \/ d = 7%N \/ d = 8%N \/ d = 9%N)
    by lia.
  destruct Hcases as [->|[->|[->|[->|[->|[->|[->|[->|[->| ->]]]]]]]]];
    reflexivity.
Qed.

Lemma parse_digits_pretty_go (x : N) (s : string) (acc : option Z) :
  (0 < x)%N ->
  exists k : nat,
    Js.parse_digits 10 (pretty_N_go x s) acc
    = Js.parse_digits 10 s
        (Some (default 0 acc * 10 ^ Z.of_nat k + Z.of_N x)).
Proof.
  revert s acc. induction (N.lt_wf_0 x) as [x _ IH]. intros s acc Hx.
  rewrite pretty_N_go_step by exact Hx.
  assert (Hmod : (x `mod` 10 < 10)%N) by (apply N.mod_lt; lia).
  assert (Hsplit : Z.of_N x
                   = Z.of_N (x `div` 10) * 10 + Z.of_N (x `mod` 10)).
  { rewrite <- (N2Z.inj_mul _ 10), <- N2Z.inj_add. f_equal.
    rewrite N.mul_comm. apply N.div_mod. lia. }
  assert (Hstep : forall a,
             Js.parse_digits 10 (String (pretty_N_char (x `mod` 10)) s) a
             = Js.parse_digits 10 s
                 (Some (default 0 a * 10 + Z.of_N (x `mod` 10)))).
  { intros a. cbn [Js.parse_digits]. rewrite (digit_value_pretty _ Hmod).
    destruct (Z.ltb_spec (Z.of_N (x `mod` 10)) 10); [reflexivity|lia]. }
  destruct (N.eq_dec (x `div` 10)%N 0%N) as [Hz|Hnz].
  - rewrite Hz, pretty_N_go_0. exists 1%nat. rewrite Hstep.
    rewrite Hsplit, Hz.
    apply (f_equal (Js.parse_digits 10 s)), (f_equal Some).
    change (Z.of_nat 1) with 1. change (Z.of_N 0) with 0.
    rewrite Z.pow_1_r. lia.
  - assert (Hlt : (x `div` 10 < x)%N) by (apply N.div_lt; lia).
    assert (Hpos : (0 < x `div` 10)%N) by lia.
    destruct (IH (x `div` 10)%N Hlt
                (String (pretty_N_char (x `mod` 10)%N) s) acc Hpos)
      as [k Hk].
    exists (S k). rewrite Hk, Hstep.
    apply (f_equal (Js.parse_digits 10 s)), (f_equal Some).
    cbn [default]. rewrite Hsplit, Nat2Z.inj_succ, Z.pow_succ_r by lia.
    unfold id. ring.
Qed.

Lemma pretty_go_head (x : N) (s : string) :
  (0 < x)%N ->
  exists d t, (0 < d < 10)%N /\ pretty_N_go x s = String (pretty_N_char d) t.
Proof.
  revert s. induction (N.lt_wf_0 x) as [x _ IH]. intros s Hx.
  rewrite pretty_N_go_step by exact Hx.
  destruct (N.eq_dec (x `div` 10)%N 0%N) as [Hz|Hnz].
  - rewrite Hz, pretty_N_go_0. exists (x `mod` 10)%N, s. split; [|reflexivity].
    assert (Hlt : (x < 10)%N).
    { destruct (N.lt_ge_cases x 10) as [Hlt|Hge]; [exact Hlt|].
      exfalso. assert ((0 < x `div` 10)%N) by (apply N.div_str_pos; lia). lia. }
    rewrite N.mod_small by exact Hlt. split; assumption.
  - apply IH.
    + apply N.div_lt; [exact Hx|reflexivity].
    + apply N.neq_0_lt_0. exact Hnz.
Qed.

Lemma parse_signed_leading_digit (d : N) (t : string) :
  (0 < d < 10)%N ->
  Js.skip_spaces (String (pretty_N_char d) t) = String (pretty_N_char d) t
  /\ Js.parse_signed (String (pretty_N_char d) t)
     = Js.parse_digits 10 (String (pretty_N_char d) t) None
  /\ Js.parse_unsigned (String (pretty_N_char d) t)
     = Js.parse_digits 10 (String (pretty_N_char d) t) None.
Proof.
  intros Hd.
  assert (Hcases : d = 1%N \/ d = 2%N \/ d = 3%N \/ d = 4%N
                   \/ d = 5%N \/ d = 6%N \/ d = 7%N \/ d = 8%N \/ d = 9%N)
    by lia.
  destruct Hcases as [->|[->|[->|[->|[->|[->|[->|[->| ->]]]]]]]];
    repeat split; reflexivity.
Qed.

Lemma parseInt_pretty_pos (x : N) :
  (0 < x)%N ->
  Js.parse_signed (Js.skip_spaces (pretty_N_go x "")) = Some (Z.of_N x)
  /\ Js.parse_unsigned (pretty_N_go x "") = Some (Z.of_N x).
Proof.
  intros Hx.
  destruct (pretty_go_head x "" Hx) as (d & t & Hd & Heq).
  destruct (parse_signed_leading_digit d t Hd) as (Hsk & Hsg & Hun).
  destruct (parse_digits_pretty_go x "" None Hx) as [k Hk].
  cbn [Js.parse_digits default] in Hk. rewrite Z.mul_0_l, Z.add_0_l in Hk.
  rewrite Heq in *. rewrite Hsk, Hsg, Hun. split; exact Hk.
Qed.

Lemma parseInt_pretty (z : Z) : Js.parseInt (Some (pretty z)) = Some z.
Proof.
  unfold Js.parseInt. destruct z as [|p|p].
  - reflexivity.
  - unfold pretty, pretty_Z, pretty, pretty_positive, pretty, pretty_N.
    destruct (decide (N.pos p = 0%N)) as [Hz|_]; [discriminate Hz|].
    apply (parseInt_pretty_pos (N.pos p)). reflexivity.
  - unfold pretty, pretty_Z, pretty, pretty_positive, pretty, pretty_N.
    destruct (decide (N.pos p = 0%N)) as [Hz|_]; [discriminate Hz|].
    change ("-" +:+ pretty_N_go (N.pos p) "")
      with (String "-" (pretty_N_go (N.pos p) "")).
    change (Js.skip_spaces (String "-" (pretty_N_go (N.pos p) "")))
      with (String "-" (pretty_N_go (N.pos p) "")).
    change (Js.parse_signed (String "-" (pretty_N_go (N.pos p) "")))
      with (Z.opp <$> Js.parse_unsigned (pretty_N_go (N.pos p) "")).
    assert (Hpos : (0 < N.pos p)%N) by reflexivity.
    rewrite (proj2 (parseInt_pretty_pos (N.pos p) Hpos)).
    reflexivity.
Qed.

(** Whether or not it throws later, [selectAnswer] has stored the answer. *)
Lemma selectAnswer_this (w : World) (b : Button) (questionDiv : QuestionDiv) :
  closest_question b = Some questionDiv ->
  this (exec (selectAnswer (Some b)) w)
  = store_answer (questionIndex_of questionDiv) (choice_answer b) (this w).
Proof.
  intros Hb. unfold selectAnswer, exec. rewrite Hb.
  unfold bind at 1. unfold set_this at 1.
  set (w1 := {| this := _; page := _; timers := _; log := _ |}).
  pose proof (updateNavigationButtons_exec w1) as Hu. unfold exec in Hu.
  unfold bind at 1.
  destruct (updateNavigationButtons w1) as [[[]|e] w2]; simpl in Hu; subst w2;
    [|reflexivity].
  unfold bind at 1. unfold get_this at 1.
  destruct (quizData (this w1)) as [qd|]; [|reflexivity].
  unfold announceToScreenReader. run_m.
  destruct (bool_decide (autoAdvance qd = Some false)); reflexivity.
Qed.

Lemma parseInt_number_to_string (z : Z) (sz : string) :
  Js.number_to_string z = Some sz -> Js.parseInt (Some sz) = Some z.
Proof.
  unfold Js.number_to_string.
  destruct (Z.abs z <=? Js.MAX_SAFE_INTEGER); [|discriminate].
  intros [= <-]. apply parseInt_pretty.
Qed.

(** X13.  What [generateQuestion] writes is read back unchanged by the
    selection methods, for a question index and an option weight that are
    safe integers.  A question generated for index [i] carries
    [data-question = i + 1], and a button carries its option's weight in
    [data-weight]; selecting such a button stores the answer under index
    [i] itself, with the option's weight as weight (for a scale button when
    that weight is not 0, the parsed value otherwise). *)
Theorem X13_generated_attributes_are_read_back (w : World) (b : Button)
    (index : Z) (o : Option_) :
  generated_for index o b ->
  (exists questionDiv,
      closest_question b = Some questionDiv
      /\ questionIndex_of questionDiv = Some index)
  /\ weight (choice_answer b) = opt_weight o
  /\ weight (scale_answer b)
     = (if opt_weight o =? 0
        then Js.or_zero (Js.parseInt (dataset_value b))
        else opt_weight o)
  /\ answers (this (exec (selectAnswer (Some b)) w)) !! Some index
     = Some (choice_answer b)
  /\ answers (this (exec (selectScaleAnswer (Some b)) w)) !! Some index
     = Some (scale_answer b).
Proof.
  intros (questionDiv & sq & sw & Hsq & Hsw & Hb & Hq & Hw).
  assert (Hindex : questionIndex_of questionDiv = Some index).
  { unfold questionIndex_of. rewrite Hq.
    rewrite (parseInt_number_to_string _ _ Hsq). cbn [Js.pred].
    f_equal. lia. }
  assert (Hparse : Js.parseInt (dataset_weight b) = Some (opt_weight o)).
  { rewrite Hw. apply (parseInt_number_to_string _ _ Hsw). }
  split; [exists questionDiv; split; assumption|].
  split.
  { cbn [choice_answer weight]. rewrite Hparse.
    unfold Js.or_zero, Js.or_else, Js.truthy.
    destruct (Z.eqb_spec (opt_weight o) 0) as [Hz|Hnz]; simpl; congruence. }
  split.
  { cbn [scale_answer weight]. rewrite Hparse.
    unfold Js.or_else at 1. unfold Js.truthy at 1.
    destruct (Z.eqb_spec (opt_weight o) 0) as [Hz|Hnz]; cbn [negb].
    - reflexivity.
    - unfold Js.or_zero, Js.or_else, Js.truthy.
      destruct (Z.eqb_spec (opt_weight o) 0); [contradiction|reflexivity]. }
  split.
  - rewrite (selectAnswer_this w b _ Hb), Hindex.
    cbn [store_answer set_answers answers]. apply lookup_insert_eq.
  - rewrite (selectScaleAnswer_this w b _ Hb), Hindex.
    cbn [store_answer set_answers answers]. apply lookup_insert_eq.
Qed.

Lemma X13_generated_attributes_are_read_back_witness :
  let o := {| opt_value := "often"; opt_weight := 12; opt_text := "Often";
              opt_icon := None |} in
  let b := {| closest_question := Some {| dataset_question := Some "42" |};
              dataset_value := Some "often";
              dataset_weight := Some "12";
              text_textContent := Some "Often" |} in
  generated_for 41 o b
  /\ (weight <$> answers (this (exec (selectAnswer (Some b)) Demo.at_first))
                   !! Some 41) = Some 12.
Proof.
  intros o b.
  assert (Hgen : generated_for 41 o b).
  { exists {| dataset_question := Some "42" |}, "42", "12".
    repeat split; vm_compute; reflexivity. }
  split; [exact Hgen|].
  destruct (X13_generated_attributes_are_read_back Demo.at_first b 41 o Hgen)
    as (_ & Hw & _ & Hstored & _).
  rewrite Hstored. cbn [fmap option_fmap option_map]. rewrite Hw.
  reflexivity.
Defined.

(** ** The local event log *)

Lemma keep_last_100_drop {D} (l : list (Tracking.Entry D)) :
  Tracking.keep_last_100 l = drop (length l - 100) l.
Proof.
  unfold Tracking.keep_last_100.
  destruct (Nat.ltb_spec 100 (length l)) as [Hgt|Hle]; [reflexivity|].
  replace (length l - 100)%nat with 0%nat by lia. reflexivity.
Qed.

Lemma keep_last_100_snoc {D} (l : list (Tracking.Entry D))
    (e : Tracking.Entry D) :
  Tracking.keep_last_100 (Tracking.keep_last_100 l ++ [e])
  = Tracking.keep_last_100 (l ++ [e]).
Proof.
  rewrite !keep_last_100_drop.
  rewrite <- (drop_app_le l [e] (length l - 100)) by lia.
  rewrite drop_drop. f_equal.
  rewrite length_drop, !length_app. simpl. lia.
Qed.

Lemma trackEvent_working {D} (name : string) (d : D) (now : string)
    (s : Tracking.Storage D) :
  Tracking.readable s = true -> Tracking.writable s = true ->
  Tracking.item s <> Tracking.Corrupt ->
  Tracking.trackEvent name d now s
  = {| Tracking.item :=
         Tracking.Entries
           (Tracking.keep_last_100
              (Tracking.stored s
               ++ [{| Tracking.event := name; Tracking.data := d;
                      Tracking.timestamp := now |}]));
       Tracking.readable := true;
       Tracking.writable := true |}.
Proof.
  intros Hr Hw Hi. unfold Tracking.trackEvent, Tracking.stored.
  rewrite Hr, Hw. cbn [negb].
  destruct (Tracking.item s); [reflexivity|reflexivity|contradiction].
Qed.

Lemma trackAll_snoc {D} (cs : list (string * D * string))
    (c : string * D * string) (s : Tracking.Storage D) :
  Tracking.trackAll (cs ++ [c]) s
  = Tracking.trackEvent c.1.1 c.1.2 c.2 (Tracking.trackAll cs s).
Proof. unfold Tracking.trackAll. rewrite foldl_app. reflexivity. Qed.

Lemma trackAll_working {D} (cs : list (string * D * string))
    (s : Tracking.Storage D) :
  Tracking.readable s = true -> Tracking.writable s = true ->
  Tracking.item s <> Tracking.Corrupt ->
  (Tracking.readable (Tracking.trackAll cs s) = true
   /\ Tracking.writable (Tracking.trackAll cs s) = true
   /\ Tracking.item (Tracking.trackAll cs s) <> Tracking.Corrupt)
  /\ (cs <> [] ->
      Tracking.stored (Tracking.trackAll cs s)
      = Tracking.keep_last_100
          (Tracking.stored s ++ (Tracking.entry_of <$> cs))).
Proof.
  intros Hr Hw Hi. induction cs as [|c cs IH] using rev_ind.
  - split; [auto|]. intros H. contradiction.
  - destruct IH as [(Hr' & Hw' & Hi') IH].
    rewrite trackAll_snoc.
    rewrite (trackEvent_working _ _ _ _ Hr' Hw' Hi').
    split; [repeat split; discriminate|]. intros _.
    cbn [Tracking.stored Tracking.item].
    rewrite fmap_app, app_assoc. cbn [fmap list_fmap].
    destruct cs as [|c0 cs0].
    + rewrite fmap_nil, app_nil_r. reflexivity.
    + rewrite IH by discriminate. apply keep_last_100_snoc.
Qed.

(** X14.  With a working storage, [trackEvent] keeps the last 100 events:
    after any calls, at least one, the stored list is the last 100 entries
    of the earlier list followed by the new events in call order.  So it
    never holds more than 100 entries, its last entry is the latest event,
    and the events it holds are in the order they were tracked. *)
Theorem X14_event_log_keeps_last_100 {D} (cs : list (string * D * string))
    (s : Tracking.Storage D) :
  Tracking.readable s = true ->
  Tracking.writable s = true ->
  Tracking.item s <> Tracking.Corrupt ->
  cs <> [] ->
  let all := Tracking.stored s ++ (Tracking.entry_of <$> cs) in
  let kept := Tracking.stored (Tracking.trackAll cs s) in
  kept = drop (length all - 100) all
  /\ length kept = Nat.min (length all) 100
  /\ last kept = Tracking.entry_of <$> last cs
  /\ kept `suffix_of` all.
Proof.
  intros Hr Hw Hi Hne all kept.
  assert (Hkept : kept = drop (length all - 100) all).
  { subst kept all.
    rewrite (proj2 (trackAll_working cs s Hr Hw Hi) Hne).
    apply keep_last_100_drop. }
  split; [exact Hkept|].
  split; [rewrite Hkept, length_drop; lia|].
  split; [|rewrite Hkept; apply suffix_drop].
  rewrite Hkept. subst all.
  destruct cs as [|c cs] using rev_ind; [contradiction|]. clear IHcs.
  rewrite fmap_app, app_assoc. cbn [fmap list_fmap].
  rewrite length_app. cbn [length].
  rewrite drop_app_le by lia.
  rewrite !last_snoc. reflexivity.
Qed.

Lemma X14_event_log_keeps_last_100_witness :
  let s := {| Tracking.item := Tracking.Entries
                (replicate 100 {| Tracking.event := "tool_click";
                                  Tracking.data := 0;
                                  Tracking.timestamp := "t0" |});
              Tracking.readable := true; Tracking.writable := true |} in
  let kept := Tracking.stored
                (Tracking.trackAll [("quiz_completed", 5, "t1")] s) in
  length kept = 100%nat
  /\ last kept = Some {| Tracking.event := "quiz_completed";
                         Tracking.data := 5; Tracking.timestamp := "t1" |}.
Proof.
  intros s kept.
  assert (Hi : Tracking.item s <> Tracking.Corrupt) by discriminate.
  assert (Hne : [("quiz_completed", 5, "t1")] <> []) by discriminate.
  destruct (X14_event_log_keeps_last_100 [("quiz_completed", 5, "t1")] s
              eq_refl eq_refl Hi Hne) as (_ & Hlen & Hlast & _).
  split; [exact Hlen|exact Hlast].
Defined.

(** X15.  [trackEvent] swallows every failure and repairs nothing: when
    the storage cannot be read, cannot be written, or holds an item that
    does not parse to an array, no call changes it, so that no event is
    recorded from then on. *)
Theorem X15_tracking_stays_disabled {D} (cs : list (string * D * string))
    (s : Tracking.Storage D) :
  Tracking.readable s = false
  \/ Tracking.writable s = false
  \/ Tracking.item s = Tracking.Corrupt ->
  Tracking.trackAll cs s = s.
Proof.
  intros Hoff. unfold Tracking.trackAll.
  induction cs as [|c cs IH]; [reflexivity|].
  cbn [foldl].
  assert (Hstep : Tracking.trackEvent c.1.1 c.1.2 c.2 s = s).
  { unfold Tracking.trackEvent.
    destruct (Tracking.readable s) eqn:Hr; [|reflexivity]. cbn [negb].
    destruct (Tracking.item s) eqn:Hi;
      destruct (Tracking.writable s) eqn:Hw; try reflexivity;
      destruct Hoff as [H|[H|H]]; discriminate H. }
  rewrite Hstep. exact IH.
Qed.

Lemma X15_tracking_stays_disabled_witness :
  let s := {| Tracking.item := Tracking.Corrupt;
              Tracking.readable := true; Tracking.writable := true |} in
  Tracking.trackAll [("quiz_completed", 5, "t1"); ("tool_click", 0, "t2")] s
  = s.
Proof.
  intros s.
  apply (X15_tracking_stays_disabled
           [("quiz_completed", 5, "t1"); ("tool_click", 0, "t2")] s).
  right. right. reflexivity.
Defined.

(** ** The question on display *)

Lemma shown_app (l1 l2 : list Effect) : shown (l1 ++ l2) = shown l1 ++ shown l2.
Proof. unfold shown. apply omap_app. Qed.

Lemma shown_completion (sc : SymptomChecker) (qd : QuizData) (p : Page) :
  shown (completion_effects sc qd p) = [].
Proof.
  unfold completion_effects.
  destruct (has_quiz_container p), (has_resultsSection p),
    (has_HealthCheckPro p); reflexivity.
Qed.

Lemma restartQuiz_run (w : World) (qd : QuizData) (q : Question)
    (qs : list Question) :
  quizData (this w) = Some qd -> questions qd = Some (q :: qs) ->
  has_quiz_container (page w) = true ->
  restartQuiz w
  = (Ok tt,
     {| this := {| toolName := toolName (this w);
                   quizData := quizData (this w);
                   currentQuestion := 0; answers := ∅; totalScore := 0;
                   isQuizCompleted := false |};
        page := page w;
        timers := timers w;
        log := log w ++ [ShowQuestion 0; Announce QuizRestarted] |}).
Proof.
  intros Hqd Hqs Hc. unfold restartQuiz, announceToScreenReader.
  unfold bind at 1. unfold set_this at 1.
  unfold bind at 1. unfold set_this at 1.
  unfold bind at 1. unfold set_this at 1.
  unfold bind at 1. unfold set_this at 1.
  unfold bind at 1. unfold get_page at 1.
  cbn [page]. rewrite Hc. cbn [negb].
  set (w1 := {| this := _; page := _; timers := _; log := _ |}).
  assert (Hqd1 : quizData (this w1) = Some qd) by exact Hqd.
  rewrite (bind_run _ _ _ _ _ (showQuestion_run w1 qd (q :: qs) 0 Hqd1 Hqs)).
  cbn [length Z.of_nat Z.leb Z.compare]. unfold emit. subst w1.
  cbn [with_log this page timers log]. rewrite <- app_assoc. reflexivity.
Qed.

(** What one event does to the page, the trace and the current index of a
    state reached after loading, in a page with the quiz container. *)
Lemma step_shown (tool : string) (qd : QuizData) (q : Question)
    (qs : list Question) (w : World) (e : Event) :
  questions qd = Some (q :: qs) ->
  Reached tool qd (q :: qs) w ->
  has_quiz_container (page w) = true ->
  page (step w e) = page w
  /\ exists l,
       log (step w e) = log w ++ l
       /\ (shown l = []
           /\ currentQuestion (this (step w e)) = currentQuestion (this w)
           \/ shown l = [currentQuestion (this (step w e))]).
Proof.
  intros Hqs Hr Hc. pose proof (reached_data _ _ _ _ Hr) as Hqd.
  assert (Hnext : forall w1, quizData (this w1) = Some qd ->
            page (exec nextQuestion w1) = page w1
            /\ exists l,
                 log (exec nextQuestion w1) = log w1 ++ l
                 /\ (shown l = []
                     /\ currentQuestion (this (exec nextQuestion w1))
                        = currentQuestion (this w1)
                     \/ shown l
                        = [currentQuestion (this (exec nextQuestion w1))])).
  { intros w1 Hqd1. unfold exec.
    destruct (answered (this w1)) eqn:Ha.
    - destruct (Z.ltb_spec (currentQuestion (this w1))
                  (Z.of_nat (length (q :: qs)) - 1)) as [Hlt|Hge].
      + rewrite (nextQuestion_advance w1 qd (q :: qs) Hqd1 Hqs Ha Hlt).
        split; [reflexivity|]. eexists. split; [reflexivity|].
        right. reflexivity.
      + rewrite (nextQuestion_complete w1 qd (q :: qs) Hqd1 Hqs Ha Hge).
        rewrite (completeQuiz_cases w1 qd Hqd1).
        split; [reflexivity|]. eexists. split; [reflexivity|].
        left. split; [apply shown_completion|reflexivity].
    - rewrite (nextQuestion_blocked w1 Ha).
      split; [reflexivity|]. exists []. rewrite app_nil_r.
      split; [reflexivity|]. left. split; reflexivity. }
  destruct e as [b|b| | | |]; unfold step; [cbn [handle]..|].
  - destruct (closest_question b) as [questionDiv|] eqn:Hb; unfold exec.
    + rewrite (selectAnswer_run w b questionDiv qd (q :: qs) Hb Hqd Hqs).
      split; [reflexivity|]. eexists. split; [reflexivity|].
      left. split; reflexivity.
    + rewrite (proj1 (selectAnswer_outside w b Hb)).
      split; [reflexivity|]. exists []. rewrite app_nil_r.
      split; [reflexivity|]. left. split; reflexivity.
  - destruct (closest_question b) as [questionDiv|] eqn:Hb; unfold exec.
    + rewrite (selectScaleAnswer_run w b questionDiv qd (q :: qs) Hb Hqd Hqs).
      split; [reflexivity|]. eexists. split; [reflexivity|].
      left. split; reflexivity.
    + rewrite (proj2 (selectAnswer_outside w b Hb)).
      split; [reflexivity|]. exists []. rewrite app_nil_r.
      split; [reflexivity|]. left. split; reflexivity.
  - apply Hnext. exact Hqd.
  - unfold exec.
    destruct (Z.ltb_spec 0 (currentQuestion (this w))) as [Hpos|Hzero].
    + rewrite (previousQuestion_back w Hpos).
      erewrite showQuestion_run by (simpl; eassumption).
      pose proof (reached_range _ _ _ _ Hr) as Hrange.
      destruct (Z.leb_spec (Z.of_nat (length (q :: qs)))
                  (currentQuestion (this w) - 1)) as [Hle|_]; [lia|].
      split; [reflexivity|]. eexists. split; [reflexivity|].
      right. reflexivity.
    + rewrite (previousQuestion_first w Hzero).
      split; [reflexivity|]. exists []. rewrite app_nil_r.
      split; [reflexivity|]. left. split; reflexivity.
  - unfold exec. rewrite (restartQuiz_run w qd q qs Hqd Hqs Hc).
    split; [reflexivity|]. eexists. split; [reflexivity|].
    right. reflexivity.
  - destruct (timers w) as [|[] ts] eqn:Hts.
    + unfold exec, handle, bind, pop_timer. rewrite Hts.
      split; [reflexivity|]. exists []. rewrite app_nil_r.
      split; [reflexivity|]. left. split; reflexivity.
    + unfold exec. rewrite (timer_fires_run w ts Hts), autoAdvanceCallback_run.
      destruct (answered (this (with_timers ts w))).
      * apply (Hnext (with_timers ts w)). exact Hqd.
      * split; [reflexivity|]. exists []. rewrite app_nil_r.
        split; [reflexivity|]. left. split; reflexivity.
Qed.

(** X16.  In a page that has the quiz container, after a successful load
    and any clicks and timers, the question most recently shown is the
    current question of the engine, and no question was ever shown whose
    index is not a valid question index. *)
Theorem X16_question_on_display_is_current (tool : string) (p : Page)
    (status : Z) (qd : QuizData) (q : Question) (qs : list Question)
    (es : list Event) :
  questions qd = Some (q :: qs) ->
  has_quiz_container p = true ->
  let w := run (construct tool p (Response true status (Some (Some qd)))) es in
  last (shown (log w)) = Some (currentQuestion (this w))
  /\ (forall i, i ∈ shown (log w) -> 0 <= i < Z.of_nat (length (q :: qs))).
Proof.
  intros Hq Hc w. subst w.
  set (w0 := construct tool p (Response true status (Some (Some qd)))).
  assert (Hr0 : Reached tool qd (q :: qs) w0)
    by (apply Reached_construct; exact Hq).
  assert (H0 : page w0 = p
               /\ last (shown (log w0)) = Some (currentQuestion (this w0))
               /\ (forall i, i ∈ shown (log w0) ->
                             0 <= i < Z.of_nat (length (q :: qs)))).
  { subst w0. rewrite (construct_ok tool p status qd q qs Hq).
    split; [reflexivity|]. split; [reflexivity|].
    intros i Hi. cbn in Hi. apply list_elem_of_singleton in Hi. subst i.
    cbn [length]. lia. }
  clearbody w0. revert w0 Hr0 H0.
  induction es as [|e es IH]; intros w0 Hr0 (Hp & Hlast & Hall);
    [split; assumption|].
  unfold run in *. cbn [foldl]. rewrite <- Hp in Hc.
  destruct (step_shown tool qd q qs w0 e Hq Hr0 Hc)
    as (Hpage & l & Hlog & Hcases).
  pose proof (Reached_step tool qd (q :: qs) w0 e Hq Hr0) as Hr1.
  apply IH; [exact Hr1|].
  split; [rewrite Hpage; exact Hp|].
  rewrite Hlog, shown_app.
  destruct Hcases as [[Hnil Hsame]|Hone].
  - rewrite Hnil, app_nil_r, Hsame. split; assumption.
  - rewrite Hone. split; [apply last_snoc|].
    intros i Hi. apply elem_of_app in Hi as [Hi|Hi]; [apply Hall; exact Hi|].
    apply list_elem_of_singleton in Hi. subst i.
    apply (reached_range _ _ _ _ Hr1).
Qed.

Lemma X16_question_on_display_is_current_witness :
  last (shown (log Demo.went_back))
  = Some (currentQuestion (this Demo.went_back)).
Proof.
  exact (proj1 (X16_question_on_display_is_current "fatigue" Demo.full_page
                  200 (Demo.quiz 3 2 4 10) Demo.question
                  [Demo.question; Demo.question]
                  [ClickAnswer (Demo.answer_button "1" "2"); TimerFires;
                   ClickAnswer (Demo.answer_button "2" "2"); TimerFires;
                   ClickPrev; ClickPrev;
                   ClickAnswer (Demo.answer_button "1" "1"); ClickNext]
                  eq_refl eq_refl)).
Defined.

(** ** Repeated exports *)

(** X17.  [exportResults] never touches the answers, the current index,
    the completed flag, the timers or the trace: on a completed session
    with a loaded document its only write is the recomputed sum of weights
    into [totalScore], and otherwise it writes nothing.  Hence a second
    export leaves the world as the first left it, and every export after
    the first returns the same snapshot (for the same time stamp), whose
    score is the sum of the recorded weights. *)
Theorem X17_export_only_refreshes_score (now : string) (w : World)
    (qd : QuizData) :
  quizData (this w) = Some qd ->
  let total := sum_of_weights (answers (this w)) in
  let w1 := exec (exportResults now) w in
  w1 = (if isQuizCompleted (this w)
        then with_this (set_totalScore total (this w)) w
        else w)
  /\ exec (exportResults now) w1 = w1
  /\ exported (exportResults now (exec (exportResults now) w1))
     = exported (exportResults now w1)
  /\ (isQuizCompleted (this w) = true ->
      res_score <$> exported (exportResults now w1) = Some total).
Proof.
  intros Hqd total w1.
  destruct (isQuizCompleted (this w)) eqn:Hc.
  - assert (Hw1 : w1 = with_this (set_totalScore total (this w)) w).
    { subst w1. unfold exec.
      rewrite (exportResults_run now w qd Hc Hqd). reflexivity. }
    assert (Hrun1 : exportResults now w1
                    = (Ok (Some {| res_tool := toolName (this w);
                                   res_score := total;
                                   res_level := level_for (scoring qd) total;
                                   res_answers := answers (this w);
                                   res_completedAt := now;
                                   res_recommendations :=
                                     recommendations qd
                                       (level_for (scoring qd) total) |}),
                       w1)).
    { rewrite Hw1.
      rewrite (exportResults_run now
                 (with_this (set_totalScore total (this w)) w) qd Hc Hqd).
      reflexivity. }
    split; [exact Hw1|].
    assert (Hexec : exec (exportResults now) w1 = w1)
      by (unfold exec; rewrite Hrun1; reflexivity).
    split; [exact Hexec|]. split; [rewrite Hexec; reflexivity|].
    intros _. unfold exported. rewrite Hrun1. reflexivity.
  - assert (Hw1 : w1 = w).
    { subst w1. unfold exec.
      rewrite (exportResults_not_completed now w Hc). reflexivity. }
    split; [exact Hw1|]. rewrite Hw1.
    assert (Hexec : exec (exportResults now) w = w)
      by (unfold exec; rewrite (exportResults_not_completed now w Hc);
          reflexivity).
    split; [exact Hexec|]. split; [rewrite Hexec; reflexivity|].
    intros Hfalse. discriminate Hfalse.
Qed.

Lemma X17_export_only_refreshes_score_witness :
  res_score <$> exported (exportResults "t" Demo.reanswered) = Some 2
  /\ res_score <$>
       exported (exportResults "t" (exec (exportResults "t") Demo.reanswered))
     = Some 5
  /\ res_score <$>
       exported (exportResults "t"
                   (exec (exportResults "t")
                      (exec (exportResults "t") Demo.reanswered)))
     = Some 5.
Proof.
  assert (Hc : isQuizCompleted (this Demo.reanswered) = true)
    by (vm_compute; reflexivity).
  destruct (X17_export_only_refreshes_score "t" Demo.reanswered
              (Demo.quiz 1 2 4 10) eq_refl) as (_ & _ & Hsame & Hscore).
  split; [vm_compute; reflexivity|].
  split; [rewrite (Hscore Hc); vm_compute; reflexivity|].
  rewrite Hsame, (Hscore Hc). vm_compute. reflexivity.
Defined.
